(** * TransitSense: a shallow embedding of [rag_pipeline.py] and [app.py]

    A Python [str] is a sequence of code points; it is modelled by its
    UTF-8 encoding, a [String.string] of bytes.  [chars] cuts a string
    into its characters, and [len], [str.isspace], [str.strip] and
    [str.lower] work on characters, with the character tables of
    CPython 3.11 (Unicode 14.0).  JSON field values are modelled by their
    [str()] rendering, which is what the f-string of [_load_json_docs]
    inserts. *)

From Stdlib Require Import String Ascii List Arith Lia ZArith Bool.
From Stdlib Require Import Sorting.Sorted Sorting.Permutation DecimalString.
Import ListNotations.
Open Scope list_scope.
Open Scope string_scope.

(** ** Python string helpers *)

Definition nl : string := String (ascii_of_nat 10) "".

(** [sep.join(parts)] with [sep = ""]. *)
Definition str_concat (l : list string) : string := fold_right String.append "" l.

(** A UTF-8 continuation byte, 0b10xxxxxx. *)
Definition is_cont (b : ascii) : bool :=
  let n := nat_of_ascii b in (128 <=? n)%nat && (n <? 192)%nat.

(** [list(s)]: the characters of [s], each a leading byte followed by
    the continuation bytes after it. *)
Fixpoint chars (s : string) : list string :=
  match s with
  | EmptyString => []
  | String b s' =>
      match chars s' with
      | String c p :: ps =>
          if is_cont c then String b (String c p) :: ps else String b "" :: String c p :: ps
      | ps => String b "" :: ps
      end
  end.

(** [len(s)]: the number of characters. *)
Definition len (s : string) : nat := List.length (chars s).

(** [s] is empty or starts at a character boundary. *)
Definition at_char_start (s : string) : bool :=
  match s with
  | EmptyString => true
  | String b _ => negb (is_cont b)
  end.

Definition byte_val (b : ascii) : Z := Z.of_N (N_of_ascii b).

(** [ord(ch)] of a one-character string. *)
Definition code_point (ch : string) : option Z :=
  match ch with
  | String a EmptyString =>
      let n0 := byte_val a in if (n0 <? 128)%Z then Some n0 else None
  | String a (String b EmptyString) =>
      let n0 := byte_val a in
      if (192 <=? n0)%Z && (n0 <? 224)%Z
      then Some ((n0 - 192) * 64 + (byte_val b - 128))%Z else None
  | String a (String b (String c EmptyString)) =>
      let n0 := byte_val a in
      if (224 <=? n0)%Z && (n0 <? 240)%Z
      then Some ((n0 - 224) * 4096 + (byte_val b - 128) * 64 + (byte_val c - 128))%Z else None
  | String a (String b (String c (String d EmptyString))) =>
      let n0 := byte_val a in
      if (240 <=? n0)%Z && (n0 <? 248)%Z
      then Some ((n0 - 240) * 262144 + (byte_val b - 128) * 4096
                 + (byte_val c - 128) * 64 + (byte_val d - 128))%Z else None
  | _ => None
  end.

Definition byte_of (n : Z) : ascii := ascii_of_N (Z.to_N n).

(** [chr(cp)], encoded. *)
Definition utf8_encode (cp : Z) : string :=
  if (cp <? 128)%Z then String (byte_of cp) ""
  else if (cp <? 2048)%Z then
    String (byte_of (192 + cp / 64)) (String (byte_of (128 + cp mod 64)) "")
  else if (cp <? 65536)%Z then
    String (byte_of (224 + cp / 4096)) (String (byte_of (128 + (cp / 64) mod 64))
      (String (byte_of (128 + cp mod 64)) ""))
  else
    String (byte_of (240 + cp / 262144)) (String (byte_of (128 + (cp / 4096) mod 64))
      (String (byte_of (128 + (cp / 64) mod 64)) (String (byte_of (128 + cp mod 64)) ""))).

Definition in_ranges (cp : Z) (t : list (Z * Z)) : bool :=
  existsb (fun '(lo, hi) => (lo <=? cp)%Z && (cp <=? hi)%Z) t.

(** The code points for which [str.isspace()] holds. *)
Definition space_table : list (Z * Z) :=
  [(9, 13); (28, 32); (133, 133); (160, 160); (5760, 5760); (8192, 8202);
   (8232, 8233); (8239, 8239); (8287, 8287); (12288, 12288)]%Z.

(** [ch.isspace()] for one character. *)
Definition py_isspace (ch : string) : bool :=
  match code_point ch with
  | Some cp => in_ranges cp space_table
  | None => false
  end.

Fixpoint lstrip_chars (cs : list string) : list string :=
  match cs with
  | [] => []
  | c :: cs' => if py_isspace c then lstrip_chars cs' else cs
  end.

(** [str.strip()]: whitespace characters removed at both ends. *)
Definition py_strip (s : string) : string :=
  str_concat (rev (lstrip_chars (rev (lstrip_chars (chars s))))).

(** Simple lowercase mappings of Unicode 14.0 (all but U+03A3 and
    U+0130, handled apart): [(lo, hi, step, delta)] maps every [cp] in
    [lo..hi] with [cp - lo] a multiple of [step] to [cp + delta]. *)
Definition lower_table : list (Z * Z * Z * Z) := [
   (65, 90, 1, 32); (192, 214, 1, 32); (216, 222, 1, 32); (256, 302, 2, 1); (306, 310, 2, 1);
   (313, 327, 2, 1); (330, 374, 2, 1); (376, 376, 1, -121); (377, 381, 2, 1); (385, 385, 1, 210);
   (386, 388, 2, 1); (390, 390, 1, 206); (391, 391, 1, 1); (393, 394, 1, 205); (395, 395, 1, 1);
   (398, 398, 1, 79); (399, 399, 1, 202); (400, 400, 1, 203); (401, 401, 1, 1); (403, 403, 1, 205);
   (404, 404, 1, 207); (406, 406, 1, 211); (407, 407, 1, 209); (408, 408, 1, 1); (412, 412, 1, 211);
   (413, 413, 1, 213); (415, 415, 1, 214); (416, 420, 2, 1); (422, 422, 1, 218); (423, 423, 1, 1);
   (425, 425, 1, 218); (428, 428, 1, 1); (430, 430, 1, 218); (431, 431, 1, 1); (433, 434, 1, 217);
   (435, 437, 2, 1); (439, 439, 1, 219); (440, 440, 1, 1); (444, 444, 1, 1); (452, 452, 1, 2);
   (453, 453, 1, 1); (455, 455, 1, 2); (456, 456, 1, 1); (458, 458, 1, 2); (459, 475, 2, 1);
   (478, 494, 2, 1); (497, 497, 1, 2); (498, 500, 2, 1); (502, 502, 1, -97); (503, 503, 1, -56);
   (504, 542, 2, 1); (544, 544, 1, -130); (546, 562, 2, 1); (570, 570, 1, 10795); (571, 571, 1, 1);
   (573, 573, 1, -163); (574, 574, 1, 10792); (577, 577, 1, 1); (579, 579, 1, -195); (580, 580, 1, 69);
   (581, 581, 1, 71); (582, 590, 2, 1); (880, 882, 2, 1); (886, 886, 1, 1); (895, 895, 1, 116);
   (902, 902, 1, 38); (904, 906, 1, 37); (908, 908, 1, 64); (910, 911, 1, 63); (913, 929, 1, 32);
   (932, 939, 1, 32); (975, 975, 1, 8); (984, 1006, 2, 1); (1012, 1012, 1, -60); (1015, 1015, 1, 1);
   (1017, 1017, 1, -7); (1018, 1018, 1, 1); (1021, 1023, 1, -130); (1024, 1039, 1, 80); (1040, 1071, 1, 32);
   (1120, 1152, 2, 1); (1162, 1214, 2, 1); (1216, 1216, 1, 15); (1217, 1229, 2, 1); (1232, 1326, 2, 1);
   (1329, 1366, 1, 48); (4256, 4293, 1, 7264); (4295, 4295, 1, 7264); (4301, 4301, 1, 7264); (5024, 5103, 1, 38864);
   (5104, 5109, 1, 8); (7312, 7354, 1, -3008); (7357, 7359, 1, -3008); (7680, 7828, 2, 1); (7838, 7838, 1, -7615);
   (7840, 7934, 2, 1); (7944, 7951, 1, -8); (7960, 7965, 1, -8); (7976, 7983, 1, -8); (7992, 7999, 1, -8);
   (8008, 8013, 1, -8); (8025, 8031, 2, -8); (8040, 8047, 1, -8); (8072, 8079, 1, -8); (8088, 8095, 1, -8);
   (8104, 8111, 1, -8); (8120, 8121, 1, -8); (8122, 8123, 1, -74); (8124, 8124, 1, -9); (8136, 8139, 1, -86);
   (8140, 8140, 1, -9); (8152, 8153, 1, -8); (8154, 8155, 1, -100); (8168, 8169, 1, -8); (8170, 8171, 1, -112);
   (8172, 8172, 1, -7); (8184, 8185, 1, -128); (8186, 8187, 1, -126); (8188, 8188, 1, -9); (8486, 8486, 1, -7517);
   (8490, 8490, 1, -8383); (8491, 8491, 1, -8262); (8498, 8498, 1, 28); (8544, 8559, 1, 16); (8579, 8579, 1, 1);
   (9398, 9423, 1, 26); (11264, 11311, 1, 48); (11360, 11360, 1, 1); (11362, 11362, 1, -10743); (11363, 11363, 1, -3814);
   (11364, 11364, 1, -10727); (11367, 11371, 2, 1); (11373, 11373, 1, -10780); (11374, 11374, 1, -10749); (11375, 11375, 1, -10783);
   (11376, 11376, 1, -10782); (11378, 11378, 1, 1); (11381, 11381, 1, 1); (11390, 11391, 1, -10815); (11392, 11490, 2, 1);
   (11499, 11501, 2, 1); (11506, 11506, 1, 1); (42560, 42604, 2, 1); (42624, 42650, 2, 1); (42786, 42798, 2, 1);
   (42802, 42862, 2, 1); (42873, 42875, 2, 1); (42877, 42877, 1, -35332); (42878, 42886, 2, 1); (42891, 42891, 1, 1);
   (42893, 42893, 1, -42280); (42896, 42898, 2, 1); (42902, 42920, 2, 1); (42922, 42922, 1, -42308); (42923, 42923, 1, -42319);
   (42924, 42924, 1, -42315); (42925, 42925, 1, -42305); (42926, 42926, 1, -42308); (42928, 42928, 1, -42258); (42929, 42929, 1, -42282);
   (42930, 42930, 1, -42261); (42931, 42931, 1, 928); (42932, 42946, 2, 1); (42948, 42948, 1, -48); (42949, 42949, 1, -42307);
   (42950, 42950, 1, -35384); (42951, 42953, 2, 1); (42960, 42960, 1, 1); (42966, 42968, 2, 1); (42997, 42997, 1, 1);
   (65313, 65338, 1, 32); (66560, 66599, 1, 40); (66736, 66771, 1, 40); (66928, 66938, 1, 39); (66940, 66954, 1, 39);
   (66956, 66962, 1, 39); (66964, 66965, 1, 39); (68736, 68786, 1, 64); (71840, 71871, 1, 32); (93760, 93791, 1, 32);
   (125184, 125217, 1, 34)]%Z.

Definition cased_table : list (Z * Z) := [
   (65, 90); (97, 122); (170, 170); (181, 181); (186, 186); (192, 214); (216, 246); (248, 442);
   (444, 447); (452, 659); (661, 696); (704, 705); (736, 740); (837, 837); (880, 883); (886, 887);
   (890, 893); (895, 895); (902, 902); (904, 906); (908, 908); (910, 929); (931, 1013); (1015, 1153);
   (1162, 1327); (1329, 1366); (1376, 1416); (4256, 4293); (4295, 4295); (4301, 4301); (4304, 4346); (4349, 4351);
   (5024, 5109); (5112, 5117); (7296, 7304); (7312, 7354); (7357, 7359); (7424, 7615); (7680, 7957); (7960, 7965);
   (7968, 8005); (8008, 8013); (8016, 8023); (8025, 8025); (8027, 8027); (8029, 8029); (8031, 8061); (8064, 8116);
   (8118, 8124); (8126, 8126); (8130, 8132); (8134, 8140); (8144, 8147); (8150, 8155); (8160, 8172); (8178, 8180);
   (8182, 8188); (8305, 8305); (8319, 8319); (8336, 8348); (8450, 8450); (8455, 8455); (8458, 8467); (8469, 8469);
   (8473, 8477); (8484, 8484); (8486, 8486); (8488, 8488); (8490, 8493); (8495, 8500); (8505, 8505); (8508, 8511);
   (8517, 8521); (8526, 8526); (8544, 8575); (8579, 8580); (9398, 9449); (11264, 11492); (11499, 11502); (11506, 11507);
   (11520, 11557); (11559, 11559); (11565, 11565); (42560, 42605); (42624, 42653); (42786, 42887); (42891, 42894); (42896, 42954);
   (42960, 42961); (42963, 42963); (42965, 42969); (42997, 42998); (43000, 43002); (43824, 43866); (43868, 43880); (43888, 43967);
   (64256, 64262); (64275, 64279); (65313, 65338); (65345, 65370); (66560, 66639); (66736, 66771); (66776, 66811); (66928, 66938);
   (66940, 66954); (66956, 66962); (66964, 66965); (66967, 66977); (66979, 66993); (66995, 67001); (67003, 67004); (67456, 67456);
   (67459, 67461); (67463, 67504); (67506, 67514); (68736, 68786); (68800, 68850); (71840, 71903); (93760, 93823); (119808, 119892);
   (119894, 119964); (119966, 119967); (119970, 119970); (119973, 119974); (119977, 119980); (119982, 119993); (119995, 119995); (119997, 120003);
   (120005, 120069); (120071, 120074); (120077, 120084); (120086, 120092); (120094, 120121); (120123, 120126); (120128, 120132); (120134, 120134);
   (120138, 120144); (120146, 120485); (120488, 120512); (120514, 120538); (120540, 120570); (120572, 120596); (120598, 120628); (120630, 120654);
   (120656, 120686); (120688, 120712); (120714, 120744); (120746, 120770); (120772, 120779); (122624, 122633); (122635, 122654); (125184, 125251);
   (127280, 127305); (127312, 127337); (127344, 127369)]%Z.

Definition case_ignorable_table : list (Z * Z) := [
   (39, 39); (46, 46); (58, 58); (94, 94); (96, 96); (168, 168); (173, 173); (175, 175);
   (180, 180); (183, 184); (688, 879); (884, 885); (890, 890); (900, 901); (903, 903); (1155, 1161);
   (1369, 1369); (1375, 1375); (1425, 1469); (1471, 1471); (1473, 1474); (1476, 1477); (1479, 1479); (1524, 1524);
   (1536, 1541); (1552, 1562); (1564, 1564); (1600, 1600); (1611, 1631); (1648, 1648); (1750, 1757); (1759, 1768);
   (1770, 1773); (1807, 1807); (1809, 1809); (1840, 1866); (1958, 1968); (2027, 2037); (2042, 2042); (2045, 2045);
   (2070, 2093); (2137, 2139); (2184, 2184); (2192, 2193); (2200, 2207); (2249, 2306); (2362, 2362); (2364, 2364);
   (2369, 2376); (2381, 2381); (2385, 2391); (2402, 2403); (2417, 2417); (2433, 2433); (2492, 2492); (2497, 2500);
   (2509, 2509); (2530, 2531); (2558, 2558); (2561, 2562); (2620, 2620); (2625, 2626); (2631, 2632); (2635, 2637);
   (2641, 2641); (2672, 2673); (2677, 2677); (2689, 2690); (2748, 2748); (2753, 2757); (2759, 2760); (2765, 2765);
   (2786, 2787); (2810, 2815); (2817, 2817); (2876, 2876); (2879, 2879); (2881, 2884); (2893, 2893); (2901, 2902);
   (2914, 2915); (2946, 2946); (3008, 3008); (3021, 3021); (3072, 3072); (3076, 3076); (3132, 3132); (3134, 3136);
   (3142, 3144); (3146, 3149); (3157, 3158); (3170, 3171); (3201, 3201); (3260, 3260); (3263, 3263); (3270, 3270);
   (3276, 3277); (3298, 3299); (3328, 3329); (3387, 3388); (3393, 3396); (3405, 3405); (3426, 3427); (3457, 3457);
   (3530, 3530); (3538, 3540); (3542, 3542); (3633, 3633); (3636, 3642); (3654, 3662); (3761, 3761); (3764, 3772);
   (3782, 3782); (3784, 3789); (3864, 3865); (3893, 3893); (3895, 3895); (3897, 3897); (3953, 3966); (3968, 3972);
   (3974, 3975); (3981, 3991); (3993, 4028); (4038, 4038); (4141, 4144); (4146, 4151); (4153, 4154); (4157, 4158);
   (4184, 4185); (4190, 4192); (4209, 4212); (4226, 4226); (4229, 4230); (4237, 4237); (4253, 4253); (4348, 4348);
   (4957, 4959); (5906, 5908); (5938, 5939); (5970, 5971); (6002, 6003); (6068, 6069); (6071, 6077); (6086, 6086);
   (6089, 6099); (6103, 6103); (6109, 6109); (6155, 6159); (6211, 6211); (6277, 6278); (6313, 6313); (6432, 6434);
   (6439, 6440); (6450, 6450); (6457, 6459); (6679, 6680); (6683, 6683); (6742, 6742); (6744, 6750); (6752, 6752);
   (6754, 6754); (6757, 6764); (6771, 6780); (6783, 6783); (6823, 6823); (6832, 6862); (6912, 6915); (6964, 6964);
   (6966, 6970); (6972, 6972); (6978, 6978); (7019, 7027); (7040, 7041); (7074, 7077); (7080, 7081); (7083, 7085);
   (7142, 7142); (7144, 7145); (7149, 7149); (7151, 7153); (7212, 7219); (7222, 7223); (7288, 7293); (7376, 7378);
   (7380, 7392); (7394, 7400); (7405, 7405); (7412, 7412); (7416, 7417); (7468, 7530); (7544, 7544); (7579, 7679);
   (8125, 8125); (8127, 8129); (8141, 8143); (8157, 8159); (8173, 8175); (8189, 8190); (8203, 8207); (8216, 8217);
   (8228, 8228); (8231, 8231); (8234, 8238); (8288, 8292); (8294, 8303); (8305, 8305); (8319, 8319); (8336, 8348);
   (8400, 8432); (11388, 11389); (11503, 11505); (11631, 11631); (11647, 11647); (11744, 11775); (11823, 11823); (12293, 12293);
   (12330, 12333); (12337, 12341); (12347, 12347); (12441, 12446); (12540, 12542); (40981, 40981); (42232, 42237); (42508, 42508);
   (42607, 42610); (42612, 42621); (42623, 42623); (42652, 42655); (42736, 42737); (42752, 42785); (42864, 42864); (42888, 42890);
   (42994, 42996); (43000, 43001); (43010, 43010); (43014, 43014); (43019, 43019); (43045, 43046); (43052, 43052); (43204, 43205);
   (43232, 43249); (43263, 43263); (43302, 43309); (43335, 43345); (43392, 43394); (43443, 43443); (43446, 43449); (43452, 43453);
   (43471, 43471); (43493, 43494); (43561, 43566); (43569, 43570); (43573, 43574); (43587, 43587); (43596, 43596); (43632, 43632);
   (43644, 43644); (43696, 43696); (43698, 43700); (43703, 43704); (43710, 43711); (43713, 43713); (43741, 43741); (43756, 43757);
   (43763, 43764); (43766, 43766); (43867, 43871); (43881, 43883); (44005, 44005); (44008, 44008); (44013, 44013); (64286, 64286);
   (64434, 64450); (65024, 65039); (65043, 65043); (65056, 65071); (65106, 65106); (65109, 65109); (65279, 65279); (65287, 65287);
   (65294, 65294); (65306, 65306); (65342, 65342); (65344, 65344); (65392, 65392); (65438, 65439); (65507, 65507); (65529, 65531);
   (66045, 66045); (66272, 66272); (66422, 66426); (67456, 67461); (67463, 67504); (67506, 67514); (68097, 68099); (68101, 68102);
   (68108, 68111); (68152, 68154); (68159, 68159); (68325, 68326); (68900, 68903); (69291, 69292); (69446, 69456); (69506, 69509);
   (69633, 69633); (69688, 69702); (69744, 69744); (69747, 69748); (69759, 69761); (69811, 69814); (69817, 69818); (69821, 69821);
   (69826, 69826); (69837, 69837); (69888, 69890); (69927, 69931); (69933, 69940); (70003, 70003); (70016, 70017); (70070, 70078);
   (70089, 70092); (70095, 70095); (70191, 70193); (70196, 70196); (70198, 70199); (70206, 70206); (70367, 70367); (70371, 70378);
   (70400, 70401); (70459, 70460); (70464, 70464); (70502, 70508); (70512, 70516); (70712, 70719); (70722, 70724); (70726, 70726);
   (70750, 70750); (70835, 70840); (70842, 70842); (70847, 70848); (70850, 70851); (71090, 71093); (71100, 71101); (71103, 71104);
   (71132, 71133); (71219, 71226); (71229, 71229); (71231, 71232); (71339, 71339); (71341, 71341); (71344, 71349); (71351, 71351);
   (71453, 71455); (71458, 71461); (71463, 71467); (71727, 71735); (71737, 71738); (71995, 71996); (71998, 71998); (72003, 72003);
   (72148, 72151); (72154, 72155); (72160, 72160); (72193, 72202); (72243, 72248); (72251, 72254); (72263, 72263); (72273, 72278);
   (72281, 72283); (72330, 72342); (72344, 72345); (72752, 72758); (72760, 72765); (72767, 72767); (72850, 72871); (72874, 72880);
   (72882, 72883); (72885, 72886); (73009, 73014); (73018, 73018); (73020, 73021); (73023, 73029); (73031, 73031); (73104, 73105);
   (73109, 73109); (73111, 73111); (73459, 73460); (78896, 78904); (92912, 92916); (92976, 92982); (92992, 92995); (94031, 94031);
   (94095, 94111); (94176, 94177); (94179, 94180); (110576, 110579); (110581, 110587); (110589, 110590); (113821, 113822); (113824, 113827);
   (118528, 118573); (118576, 118598); (119143, 119145); (119155, 119170); (119173, 119179); (119210, 119213); (119362, 119364); (121344, 121398);
   (121403, 121452); (121461, 121461); (121476, 121476); (121499, 121503); (121505, 121519); (122880, 122886); (122888, 122904); (122907, 122913);
   (122915, 122916); (122918, 122922); (123184, 123197); (123566, 123566); (123628, 123631); (125136, 125142); (125252, 125259); (127995, 127999);
   (917505, 917505); (917536, 917631); (917760, 917999)]%Z.

Fixpoint lower_lookup (cp : Z) (t : list (Z * Z * Z * Z)) : option Z :=
  match t with
  | [] => None
  | (lo, hi, st, d) :: t' =>
      if (lo <=? cp)%Z && (cp <=? hi)%Z && (Z.modulo (cp - lo) st =? 0)%Z
      then Some (cp + d)%Z else lower_lookup cp t'
  end.

Definition is_cased (ch : string) : bool :=
  match code_point ch with Some cp => in_ranges cp cased_table | None => false end.

Definition is_case_ignorable (ch : string) : bool :=
  match code_point ch with Some cp => in_ranges cp case_ignorable_table | None => false end.

Fixpoint skip_ignorable (cs : list string) : option string :=
  match cs with
  | [] => None
  | c :: cs' => if is_case_ignorable c then skip_ignorable cs' else Some c
  end.

(** CPython's [handle_capital_sigma]: U+03A3 lowers to the final sigma
    when a cased character precedes it and none follows it (case-
    ignorable characters skipped).  [before] is nearest first. *)
Definition final_sigma (before after : list string) : bool :=
  match skip_ignorable before with
  | Some c =>
      is_cased c && match skip_ignorable after with
                    | Some d => negb (is_cased d)
                    | None => true
                    end
  | None => false
  end.

Definition lower_char (before : list string) (ch : string) (after : list string) : string :=
  match code_point ch with
  | None => ch
  | Some cp =>
      if (cp =? 931)%Z then utf8_encode (if final_sigma before after then 962 else 963)%Z
      else if (cp =? 304)%Z then utf8_encode 105 ++ utf8_encode 775
      else match lower_lookup cp lower_table with
           | Some l => utf8_encode l
           | None => ch
           end
  end.

Fixpoint lower_go (before : list string) (cs : list string) : list string :=
  match cs with
  | [] => []
  | c :: after => lower_char before c after :: lower_go (c :: before) after
  end.

(** [str.lower()]. *)
Definition py_lower (s : string) : string := str_concat (lower_go [] (chars s)).

(** [sub in s] for strings. *)
Fixpoint py_in (sub s : string) : bool :=
  if String.prefix sub s then true
  else match s with
       | EmptyString => false
       | String _ s' => py_in sub s'
       end.

(** [x in [...]] for a list of strings. *)
Definition py_in_list (x : string) (l : list string) : bool :=
  existsb (String.eqb x) l.

(** [sep.join(parts)]. *)
Fixpoint py_join (sep : string) (parts : list string) : string :=
  match parts with
  | [] => ""
  | [p] => p
  | p :: ps => p ++ sep ++ py_join sep ps
  end.

(** ** Exceptions and printing

    The loader and the retriever print diagnostics and may raise; [M]
    threads the printed lines (stdout) and propagates exceptions. *)

Inductive exn :=
| FileNotFoundError (path : string)
| KeyError (key : string)
| JSONDecodeError (msg : string)
| OpenAIError (msg : string)
| IndexError
| ValueError (msg : string)
| GraphRecursionError.

Inductive result (A : Type) :=
| Ok (a : A)
| Raise (e : exn).
Arguments Ok {A} a.
Arguments Raise {A} e.

Definition M (A : Type) : Type := list string -> list string * result A.

Definition ret {A} (a : A) : M A := fun out => (out, Ok a).
Definition throw {A} (e : exn) : M A := fun out => (out, Raise e).
Definition bind {A B} (m : M A) (k : A -> M B) : M B :=
  fun out => match m out with
             | (out', Ok a) => k a out'
             | (out', Raise e) => (out', Raise e)
             end.
Definition print (line : string) : M unit := fun out => ((out ++ [line])%list, Ok tt).

Notation "x <- m ;; k" := (bind m (fun x => k))
  (at level 61, m at next level, right associativity).
Notation "m ;;; k" := (bind m (fun _ => k))
  (at level 61, right associativity).

(** ** Documents *)

Inductive source_tag := schedule | policy.

Record Document := mkDocument {
  page_content : string;
  source : source_tag
}.

(** A parsed JSON object: its keys with the [str()] of their values. *)
Definition record := list (string * string).

Fixpoint dict_get (t : record) (key : string) : option string :=
  match t with
  | [] => None
  | (k, v) :: t' => if String.eqb k key then Some v else dict_get t' key
  end.

(** [t[key]]: the value, or [KeyError]. *)
Definition getitem (t : record) (key : string) : M string :=
  match dict_get t key with
  | Some v => ret v
  | None => throw (KeyError key)
  end.

(** What [open(json_path)] followed by [json.load] yields; for a file
    that is not valid JSON, the message of the decoder's error. *)
Inductive json_file :=
| JsonNotFound
| JsonData (data : list record)
| JsonInvalid (msg : string).

(** The f-string of [_load_json_docs], fields read left to right. *)
Definition render_train (t : record) : M string :=
  name <- getitem t "name" ;;
  no <- getitem t "train_no" ;;
  src <- getitem t "source" ;;
  dst <- getitem t "destination" ;;
  price <- getitem t "price" ;;
  cls <- getitem t "class" ;;
  days <- getitem t "days" ;;
  ret ("Train " ++ name ++ " (" ++ no ++ ") travels from " ++ src ++ " "
       ++ "to " ++ dst ++ ". Price: " ++ price ++ ". Class: " ++ cls ++ ". "
       ++ "Days: " ++ days ++ ".").

Fixpoint json_docs_loop (data : list record) : M (list Document) :=
  match data with
  | [] => ret []
  | t :: ts =>
      text <- render_train t ;;
      rest <- json_docs_loop ts ;;
      ret (mkDocument text schedule :: rest)
  end.

Definition json_path := "train_data.json".
Definition policy_path := "policies.txt".

(** [TransitRetriever._load_json_docs]: only [FileNotFoundError] is caught. *)
Definition _load_json_docs (f : json_file) : M (list Document) :=
  match f with
  | JsonNotFound => print ("⚠️ Warning: " ++ json_path ++ " not found.") ;;; ret []
  | JsonData data => json_docs_loop data
  | JsonInvalid msg => throw (JSONDecodeError msg)
  end.

(** ** [RecursiveCharacterTextSplitter(chunk_size=500, chunk_overlap=80)]

    langchain_text_splitters' splitter with its defaults: separators
    ["\n\n", "\n", " ", ""], [keep_separator=True] (a separator is kept
    at the start of the piece that follows it), [strip_whitespace=True],
    [length_function=len]. *)

Definition chunk_size : nat := 500.
Definition chunk_overlap : nat := 80.

Definition _separators : list string := [nl ++ nl; nl; " "; ""].

Definition str_drop (n : nat) (s : string) : string :=
  String.substring n (String.length s - n) s.

(** [re.split(re.escape(sep), s)] for a non-empty [sep]: the pieces
    between leftmost non-overlapping occurrences, found byte by byte (the
    separators are ASCII, so these are the occurrences in the characters).
    [fuel] bounds the scan; [String.length s] is enough. *)
Fixpoint split_lit (fuel : nat) (sep s : string) : list string :=
  match fuel with
  | O => [s]
  | S f =>
      match s with
      | EmptyString => [""]
      | String c s' =>
          if String.prefix sep s then "" :: split_lit f sep (str_drop (String.length sep) s)
          else match split_lit f sep s' with
               | p :: ps => String c p :: ps
               | [] => [String c ""]
               end
      end
  end.

(** [_split_text_with_regex(text, separator, keep_separator=True)]. *)
Definition _split_text_with_regex (text sep : string) : list string :=
  let splits :=
    if String.eqb sep "" then chars text
    else match split_lit (String.length text) sep text with
         | p0 :: ps => p0 :: map (fun p => sep ++ p) ps
         | [] => []
         end in
  filter (fun s => negb (String.eqb s "")) splits.

(** [TextSplitter._join_docs]. *)
Definition _join_docs (docs : list string) (separator : string) : option string :=
  let text := py_strip (py_join separator docs) in
  if String.eqb text "" then None else Some text.

Definition opt_list {A} (o : option A) : list A :=
  match o with Some a => [a] | None => [] end.

(** The [while] loop of [_merge_splits] that drops splits from the
    front of [current_doc] once a chunk has been emitted. *)
Fixpoint pop_while (sep_len len_d : nat) (current : list string) (total : nat)
  : list string * nat :=
  match current with
  | [] => ([], total)
  | c :: rest =>
      if Nat.ltb chunk_overlap total || (Nat.ltb chunk_size (total + len_d + sep_len) && Nat.ltb 0 total)
      then pop_while sep_len len_d rest
             (total - (len c + (if Nat.ltb 1 (List.length current) then sep_len else 0)))
      else (current, total)
  end.

(** The [for d in splits] loop of [_merge_splits]. *)
Fixpoint merge_go (separator : string) (current : list string) (total : nat)
  (splits : list string) : list string :=
  match splits with
  | [] => opt_list (_join_docs current separator)
  | d :: ds =>
      let l := len d in
      let sep_len := len separator in
      let '(emitted, cur, tot) :=
        if Nat.ltb chunk_size (total + l + (if Nat.ltb 0 (List.length current) then sep_len else 0))
        then match current with
             | [] => ([], current, total)
             | _ :: _ =>
                 let '(c', t') := pop_while sep_len l current total in
                 (opt_list (_join_docs current separator), c', t')
             end
        else ([], current, total) in
      let cur' := (cur ++ [d])%list in
      (emitted ++ merge_go separator cur'
                   ((tot + l)%nat + (if Nat.ltb 1 (List.length cur') then sep_len else 0)) ds)%list
  end.

(** [TextSplitter._merge_splits]. *)
Definition _merge_splits (splits : list string) (separator : string) : list string :=
  merge_go separator [] 0 splits.

(** The [for s in splits] loop of [_split_text]; the merge separator is
    [""] because [keep_separator] is set.  [recurse] is [None] when
    [new_separators] is empty. *)
Fixpoint split_loop (recurse : option (string -> list string))
  (good : list string) (ss : list string) : list string :=
  match ss with
  | [] => match good with [] => [] | _ :: _ => _merge_splits good "" end
  | s :: ss' =>
      if Nat.ltb (len s) chunk_size then split_loop recurse (good ++ [s])%list ss'
      else ((match good with [] => [] | _ :: _ => _merge_splits good "" end)
            ++ (match recurse with None => [s] | Some f => f s end)
            ++ split_loop recurse [] ss')%list
  end.

(** [RecursiveCharacterTextSplitter._split_text].  The walk over
    [seps] is the separator-selection loop: the first separator that is
    [""] or occurs in [text] is used, and [new_separators] is what
    follows it; [last_sep] is [separators[-1]], used when none is
    selected.  The recursive call on an oversized piece runs the
    selection again on [new_separators]. *)
Fixpoint _split_text_go (last_sep : string) (seps : list string) (text : string)
  {struct seps} : list string :=
  match seps with
  | [] => split_loop None [] (_split_text_with_regex text last_sep)
  | s :: rest =>
      if String.eqb s "" then split_loop None [] (_split_text_with_regex text "")
      else if py_in s text then
        split_loop (match rest with
                    | [] => None
                    | _ :: _ => Some (fun piece => _split_text_go last_sep rest piece)
                    end) [] (_split_text_with_regex text s)
      else _split_text_go last_sep rest text
  end.

Definition _split_text (text : string) (separators : list string) : list string :=
  _split_text_go (last separators "") separators text.

Definition split_text (text : string) : list string := _split_text text _separators.

(** [TransitRetriever._load_text_docs]: [create_documents([text])], then
    every document's metadata source set to "policy"; [Some text] is the
    file's text as [f.read()] returns it. *)
Definition _load_text_docs (f : option string) : M (list Document) :=
  match f with
  | None => print ("⚠️ Warning: " ++ policy_path ++ " not found.") ;;; ret []
  | Some text => ret (map (fun c => mkDocument c policy) (split_text text))
  end.

(** ** [TransitRetriever] *)

(** [as_retriever(search_kwargs={"k": 3})] over the FAISS store. *)
Record Retriever := mkRetriever {
  r_docs : list Document;
  r_k : nat
}.

Record TransitRetriever := mkTransitRetriever {
  vectorstore : option (list Document);
  retriever : option Retriever
}.

Definition nat_str (n : nat) : string := NilEmpty.string_of_uint (Nat.to_uint n).

(** Lines 75-78 of [_build_pipeline]: [train_docs + policy_docs]. *)
Definition load_documents (jf : json_file) (pf : option string) : M (list Document) :=
  train_docs <- _load_json_docs jf ;;
  policy_docs <- _load_text_docs pf ;;
  ret (train_docs ++ policy_docs)%list.

(** [OpenAIEmbeddings()] and [FAISS.from_documents(all_docs, embeddings)]
    call the OpenAI service: [embedding_error] is [None] when they return,
    and [Some msg] when they raise an error of the client (missing key,
    authentication, connection, rate limit) whose [str()] is [msg]. *)
Definition embed_documents (embedding_error : option string) : M unit :=
  match embedding_error with
  | None => ret tt
  | Some msg => throw (OpenAIError msg)
  end.

(** [TransitRetriever.__init__] / [_build_pipeline]; [FAISS.from_documents]
    stores every document. *)
Definition _build_pipeline (jf : json_file) (pf : option string)
  (embedding_error : option string) : M TransitRetriever :=
  print "⚙️ Building RAG Pipeline..." ;;;
  all_docs <- load_documents jf pf ;;
  match all_docs with
  | [] => print "❌ No documents found to index." ;;;
          ret (mkTransitRetriever None None)
  | _ :: _ =>
      embed_documents embedding_error ;;;
      print ("✅ RAG Pipeline Ready. Loaded " ++ nat_str (List.length all_docs) ++ " chunks.") ;;;
      ret (mkTransitRetriever (Some all_docs) (Some (mkRetriever all_docs 3)))
  end.

Section Retrieval.

(** The L2 distance between the embedding of a query and that of a
    chunk text: [OpenAIEmbeddings] is an external service, so the
    distance is a parameter. *)
Variable dist : string -> string -> Z.

Definition doc_dist (q : string) (d : Document) : Z := dist q (page_content d).

Fixpoint insert_by (q : string) (d : Document) (l : list Document) : list Document :=
  match l with
  | [] => [d]
  | x :: l' => if Z.leb (doc_dist q d) (doc_dist q x) then d :: l else x :: insert_by q d l'
  end.

Definition sort_by_dist (q : string) (l : list Document) : list Document :=
  fold_right (insert_by q) [] l.

(** [FAISS.similarity_search(query, k)] on a flat (exact) L2 index:
    the [k] stored documents nearest to the query, nearest first. *)
Definition similarity_search (k : nat) (q : string) (docs : list Document) : list Document :=
  firstn k (sort_by_dist q docs).

(** [TransitRetriever.search]. *)
Definition search (self : TransitRetriever) (query : string) : M string :=
  match retriever self with
  | None => ret "Pipeline not initialized."
  | Some r =>
      print ("🔎 Searching: " ++ query) ;;;
      let docs := similarity_search (r_k r) query (r_docs r) in
      ret (py_join (nl ++ nl) (map page_content docs))
  end.

End Retrieval.

(** ** Start-up of [app.py] (lines 32-36) *)

(** [str(e)].  [GraphRecursionError] is raised only by [app.invoke],
    never at start-up, where [exn_str] is used. *)
Definition exn_str (e : exn) : string :=
  match e with
  | KeyError k => "'" ++ k ++ "'"
  | FileNotFoundError p => "[Errno 2] No such file or directory: '" ++ p ++ "'"
  | JSONDecodeError m => m
  | OpenAIError m => m
  | IndexError => "list index out of range"
  | ValueError m => m
  | GraphRecursionError => "Recursion limit reached without hitting a stop condition."
  end.

Inductive startup :=
| Started (transit_db : TransitRetriever)
| Exited.

Definition app_startup (jf : json_file) (pf : option string) (embedding_error : option string)
  : list string * startup :=
  match _build_pipeline jf pf embedding_error [] with
  | (out, Ok db) => (out, Started db)
  | (out, Raise e) => (app out ["Error initializing TransitRetriever: " ++ exn_str e], Exited)
  end.

(** ** The conversation graph of [app.py] *)

Record tool_call := mkToolCall {
  tc_name : string;
  tc_query : string
}.

Inductive message :=
| SystemMessage (content : string)
| HumanMessage (content : string)
| AIMessage (content : string) (tool_calls : list tool_call)
| ToolMessage (content : string).

Definition content (m : message) : string :=
  match m with
  | SystemMessage c | HumanMessage c | AIMessage c _ | ToolMessage c => c
  end.

(** [TicketBooking]; its [source] field is [booking_source] here. *)
Record TicketBooking := mkTicketBooking {
  train_name : string;
  booking_source : string;
  destination : string;
  passenger_name : string;
  class_type : string
}.

(** Calls to external services made while a node runs. *)
Inductive event :=
| LLMCall
| ToolCall (query : string)
| StructuredLLMCall.

(** [xs[-1]]. *)
Definition py_last {A} (xs : list A) : option A :=
  match rev xs with [] => None | x :: _ => Some x end.

Definition yes_words : list string := ["yes"; "y"; "book"; "book it"; "confirm"; "ok book"].
Definition no_words : list string := ["no"; "nope"; "nah"].

Definition irctc_url : string := "https://www.irctc.co.in/nget/train-search".

Definition irctc_reply : string :=
  "Great! You can book the ticket using the official IRCTC portal:" ++ nl
  ++ "👉 **" ++ irctc_url ++ "**" ++ nl ++ nl
  ++ "If you'd like, I can help you find more trains or compare prices!".

Definition decline_reply : string :=
  "No problem! Tell me what else you want to search or ask.".

Definition system_prompt : string :=
  "You are TransitSense." ++ nl
  ++ "1. Use 'search_railway_info' tool when user asks about schedules or policies." ++ nl
  ++ "2. If user says 'book this' or 'confirm ticket', ask for passenger name if missing." ++ nl
  ++ "3. When ready, output EXACT TEXT: READY_TO_BOOK." ++ nl.

Inductive node := agent | tools | booking | END.

Section Router.

(** [llm_with_tools.invoke]: the reply text and the tool calls of the
    returned [AIMessage]. *)
Variable llm_with_tools : list message -> string * list tool_call.
(** [structured_llm.invoke] and [str()] of its [TicketBooking]. *)
Variable structured_llm : list message -> TicketBooking.
Variable str_booking : TicketBooking -> string.
(** The tool body, [transit_db.search(query)]. *)
Variable search_railway_info : string -> string.

(** A node's update of [messages] (appended by [add_messages]) and the
    external calls it made. *)
Definition node_out : Type := (list message * list event)%type.

(** [agent_logic]. *)
Definition agent_logic (messages : list message) : result node_out :=
  match py_last messages with
  | None => Raise IndexError
  | Some m =>
      let user_msg := py_lower (content m) in
      if py_in_list user_msg yes_words then Ok ([AIMessage irctc_reply []], [])
      else if py_in_list user_msg no_words then Ok ([AIMessage decline_reply []], [])
      else
        let '(c, tcs) := llm_with_tools (SystemMessage system_prompt :: messages) in
        Ok ([AIMessage c tcs], [LLMCall])
  end.

(** One tool call run by [ToolNode(tools)]. *)
Definition run_tool (tc : tool_call) : message * list event :=
  if String.eqb (tc_name tc) "search_railway_info"
  then (ToolMessage (search_railway_info (tc_query tc)), [ToolCall (tc_query tc)])
  else (ToolMessage ("Error: " ++ tc_name tc
                     ++ " is not a valid tool, try one of [search_railway_info]."), []).

(** [tool_node]: every tool call of the last [AIMessage], in order. *)
Definition tool_node (messages : list message) : result node_out :=
  match py_last messages with
  | Some (AIMessage _ tcs) => Ok (map fst (map run_tool tcs), concat (map snd (map run_tool tcs)))
  | _ => Raise (ValueError "No AIMessage found in input")
  end.

(** [booking_parser] (its diagnostic print left out). *)
Definition booking_parser (messages : list message) : result node_out :=
  Ok ([AIMessage (str_booking (structured_llm messages)) []], [StructuredLLMCall]).

(** The conditional edge out of "agent". *)
Definition route (messages : list message) : result node :=
  match py_last messages with
  | None => Raise IndexError
  | Some (AIMessage _ (_ :: _)) => Ok tools
  | Some m => Ok (if py_in "READY_TO_BOOK" (content m) then booking else END)
  end.

(** One superstep: run node [n], append its messages, take its edge. *)
Definition node_step (n : node) (messages : list message)
  : result (list message * list event * node) :=
  let apply (r : result node_out) (next : list message -> result node) :=
    match r with
    | Raise e => Raise e
    | Ok (new, ev) =>
        let ms := (messages ++ new)%list in
        match next ms with
        | Raise e => Raise e
        | Ok n' => Ok (ms, ev, n')
        end
    end in
  match n with
  | agent => apply (agent_logic messages) route
  | tools => apply (tool_node messages) (fun _ => Ok agent)
  | booking => apply (booking_parser messages) (fun _ => Ok END)
  | END => Ok (messages, [], END)
  end.

(** Running the compiled graph from node [n].  [limit] is the runtime's
    [recursion_limit] (the number of supersteps allowed; [None] runs the
    graph with no limit); reaching it before [END] raises
    [GraphRecursionError].  [fuel] only bounds this interpreter: [None]
    means the run has not finished within [fuel] supersteps. *)
Fixpoint run_graph (fuel : nat) (limit : option nat) (n : node)
  (messages : list message) (calls : list event)
  : option (result (list message * list event)) :=
  match n with
  | END => Some (Ok (messages, calls))
  | _ =>
      match fuel with
      | O => None
      | S f =>
          match limit with
          | Some O => Some (Raise GraphRecursionError)
          | _ =>
              match node_step n messages with
              | Raise e => Some (Raise e)
              | Ok (ms, ev, n') => run_graph f (option_map pred limit) n' ms (calls ++ ev)%list
              end
          end
      end
  end.

(** [app.invoke({"messages": ...})]: entry point "agent", run under
    the default [recursion_limit] of the installed LangGraph (25 up to
    release 1.0, larger in later ones; the repository pins no version). *)
Variable recursion_limit : nat.

Definition app_invoke (messages : list message) : option (result (list message * list event)) :=
  run_graph (S recursion_limit) (Some recursion_limit) agent messages [].

Inductive turn :=
| Quit
| Reply (text : string) (calls : list event)
| TurnError (e : exn).

(** One iteration of the main chat loop on the raw input line. *)
Definition chat_turn (raw : string) : turn :=
  let user_input := py_strip raw in
  if py_in_list (py_lower user_input) ["exit"; "quit"] then Quit
  else match app_invoke [HumanMessage user_input] with
       | Some (Ok (ms, calls)) =>
           match py_last ms with
           | Some ai_msg => Reply (content ai_msg) calls
           | None => TurnError IndexError
           end
       | Some (Raise e) => TurnError e
       | None => TurnError GraphRecursionError
       end.

End Router.

Fixpoint str_repeat (n : nat) (c : ascii) : string :=
  match n with O => "" | S m => String c (str_repeat m c) end.

Fixpoint str_times (n : nat) (s : string) : string :=
  match n with O => "" | S m => s ++ str_times m s end.

(** The fields [_load_json_docs] reads, in order. *)
Definition train_fields : list string :=
  ["name"; "train_no"; "source"; "destination"; "price"; "class"; "days"].

Definition well_formed (t : record) : bool :=
  forallb (fun k => match dict_get t k with Some _ => true | None => false end) train_fields.

Definition substring (sub s : string) : Prop := exists pre post, s = pre ++ sub ++ post.

Definition sample_train : record :=
  [("name", "Rajdhani Express"); ("train_no", "12951"); ("source", "Mumbai");
   ("destination", "New Delhi"); ("price", "2500"); ("class", "3A"); ("days", "Daily")].

Definition sample_train_no_price : record :=
  [("name", "Duronto Express"); ("train_no", "12263"); ("source", "Pune");
   ("destination", "Delhi"); ("class", "SL"); ("days", "['Tue', 'Fri']")].

(** The tool as [app.py] wires it: [transit_db.search(query)] on the
    retriever built at start-up. *)
Definition startup_db (jf : json_file) (pf : option string) : TransitRetriever :=
  match snd (app_startup jf pf None) with
  | Started db => db
  | Exited => mkTransitRetriever None None
  end.

Definition search_tool (dist : string -> string -> Z) (db : TransitRetriever) (q : string) : string :=
  match snd (search dist db q []) with
  | Ok s => s
  | Raise _ => ""
  end.

Definition flat_dist (q c : string) : Z := 0.

(** A model that asks for a search first and answers once it sees the
    tool result. *)
Definition refund_llm (messages : list message) : string * list tool_call :=
  match py_last messages with
  | Some (ToolMessage result) => ("According to the policy: " ++ result, [])
  | _ => ("", [mkToolCall "search_railway_info" "refund policy"])
  end.

(** A model that requests the Search Tool on every call. *)
Definition always_search_llm (messages : list message) : string * list tool_call :=
  ("", [mkToolCall "search_railway_info" "trains to Delhi"]).

Definition sample_booking (messages : list message) : TicketBooking :=
  mkTicketBooking "Rajdhani Express" "Mumbai" "New Delhi" "A. Kumar" "3A".

Definition booking_str (b : TicketBooking) : string :=
  "train_name='" ++ train_name b ++ "' source='" ++ booking_source b
  ++ "' destination='" ++ destination b ++ "' passenger_name='" ++ passenger_name b
  ++ "' class_type='" ++ class_type b ++ "'".

(** [run_graph] stops on [recursion_limit] once more supersteps than the
    limit would be needed; with no limit it never stops by itself. *)
Definition limit_reached (limit : option nat) (fuel : nat) : bool :=
  match limit with Some k => Nat.ltb k fuel | None => false end.

(** Windows of the policy splitter.  A window is a stretch of the text
    before stripping; [chunk_of w] is what the splitter keeps of it
    ([_join_docs] on a window: stripped, dropped when blank). *)
Definition chunk_of (w : string) : list string :=
  opt_list (let s := py_strip w in if String.eqb s "" then None else Some s).

Definition strip_all (ws : list string) : list string := flat_map chunk_of ws.

(** [tiles t ws]: the windows [ws], in order, cover [t] from its first
    to its last character without gaps, each window overlapping the next
    by at most [chunk_overlap] characters; windows and overlaps begin and
    end at character boundaries. *)
Inductive tiles : string -> list string -> Prop :=
| tiles_nil : tiles "" []
| tiles_cons (pre ov post : string) (ws : list string) :
    len ov <= chunk_overlap ->
    at_char_start ov = true -> at_char_start post = true ->
    tiles (ov ++ post) ws ->
    tiles (pre ++ ov ++ post) ((pre ++ ov) :: ws).

(** [s.isspace() or s == ""]: nothing but whitespace. *)
Definition is_blank (s : string) : bool := forallb py_isspace (chars s).

(** 300 letters a, one space, 300 letters b. *)
Definition policy_two_words : string := str_repeat 300 "a" ++ " " ++ str_repeat 300 "b".

(** What holds of the messages when the graph is at node [n]. *)
Definition graph_inv (n : node) (ms : list message) : Prop :=
  match n with
  | agent => ms <> []
  | tools => exists c tcs, py_last ms = Some (AIMessage c tcs)
  | booking => True
  | END => exists c, py_last ms = Some (AIMessage c [])
  end.

(** ** Lemmas *)

Lemma str_app_assoc (a b c : string) : a ++ (b ++ c) = (a ++ b) ++ c.
Proof. induction a as [|x a IH]; simpl; [reflexivity | now rewrite IH]. Qed.

Lemma str_app_nil_r (s : string) : s ++ "" = s.
Proof. induction s as [|x s IH]; simpl; [reflexivity | now rewrite IH]. Qed.

Lemma str_length_app (a b : string) : String.length (a ++ b) = String.length a + String.length b.
Proof. induction a as [|x a IH]; simpl; [reflexivity | now rewrite IH]. Qed.

Lemma py_in_list_In (x : string) (l : list string) : py_in_list x l = true <-> In x l.
Proof.
  unfold py_in_list. rewrite existsb_exists. split.
  - intros [y [Hy Heq]]. apply String.eqb_eq in Heq. now subst.
  - intros H. exists x. split; [exact H | apply String.eqb_refl].
Qed.

Lemma py_last_snoc {A} (l : list A) (x : A) : py_last (l ++ [x])%list = Some x.
Proof. unfold py_last. now rewrite rev_app_distr. Qed.

(** Every computation of [M] only appends to what has been printed. *)
Definition frame {A} (m : M A) : Prop :=
  forall out, m out = ((out ++ fst (m []))%list, snd (m [])).

Lemma frame_ret {A} (a : A) : frame (ret a).
Proof. intros out. unfold ret. simpl. now rewrite app_nil_r. Qed.

Lemma frame_throw {A} (e : exn) : frame (@throw A e).
Proof. intros out. unfold throw. simpl. now rewrite app_nil_r. Qed.

Lemma frame_print (line : string) : frame (print line).
Proof. intros out. reflexivity. Qed.

Lemma frame_bind {A B} (m : M A) (k : A -> M B) :
  frame m -> (forall a, frame (k a)) -> frame (bind m k).
Proof.
  intros Hm Hk out. unfold bind. rewrite (Hm out).
  destruct (m []) as [o [a|e]]; simpl.
  - rewrite (Hk a (out ++ o)%list), (Hk a o). simpl. now rewrite app_assoc.
  - reflexivity.
Qed.

Create HintDb frame.
#[local] Hint Resolve frame_ret frame_throw frame_print frame_bind : frame.

Lemma frame_getitem t k : frame (getitem t k).
Proof. unfold getitem. destruct (dict_get t k); auto with frame. Qed.
#[local] Hint Resolve frame_getitem : frame.

Lemma frame_render_train t : frame (render_train t).
Proof. unfold render_train. repeat (apply frame_bind; [auto with frame | intros]). auto with frame. Qed.
#[local] Hint Resolve frame_render_train : frame.

Lemma frame_json_docs_loop data : frame (json_docs_loop data).
Proof. induction data; simpl; auto with frame. Qed.
#[local] Hint Resolve frame_json_docs_loop : frame.

Lemma frame_load_json jf : frame (_load_json_docs jf).
Proof. destruct jf; simpl; auto with frame. Qed.

Lemma frame_load_text pf : frame (_load_text_docs pf).
Proof. destruct pf; simpl; auto with frame. Qed.
#[local] Hint Resolve frame_load_json frame_load_text : frame.

Lemma frame_load_documents jf pf : frame (load_documents jf pf).
Proof. unfold load_documents. auto with frame. Qed.
#[local] Hint Resolve frame_load_documents : frame.

Lemma frame_embed e : frame (embed_documents e).
Proof. destruct e; simpl; auto with frame. Qed.
#[local] Hint Resolve frame_embed : frame.

Lemma frame_build_pipeline jf pf e : frame (_build_pipeline jf pf e).
Proof.
  unfold _build_pipeline. apply frame_bind; auto with frame. intros _.
  apply frame_bind; auto with frame. intros [|d ds]; auto with frame.
Qed.

Lemma substring_here (v b : string) : substring v (v ++ b).
Proof. exists "", b. reflexivity. Qed.

Lemma substring_app_l (v a s : string) : substring v s -> substring v (a ++ s).
Proof. intros [pre [post ->]]. exists (a ++ pre), post. now rewrite <- str_app_assoc. Qed.

Ltac substring_tac :=
  repeat first [ apply substring_here | apply substring_app_l ].

Lemma render_train_ok (t : record) :
  well_formed t = true ->
  exists text,
    (forall out, render_train t out = (out, Ok text)) /\
    forall k, In k ["name"; "train_no"; "source"; "destination"; "price"; "class"] ->
      exists v, dict_get t k = Some v /\ substring v text.
Proof.
  unfold well_formed, train_fields. simpl.
  destruct (dict_get t "name") as [name|] eqn:E1; [|discriminate].
  destruct (dict_get t "train_no") as [no|] eqn:E2; [|discriminate].
  destruct (dict_get t "source") as [src|] eqn:E3; [|discriminate].
  destruct (dict_get t "destination") as [dst|] eqn:E4; [|discriminate].
  destruct (dict_get t "price") as [price|] eqn:E5; [|discriminate].
  destruct (dict_get t "class") as [cls|] eqn:E6; [|discriminate].
  destruct (dict_get t "days") as [days|] eqn:E7; [|discriminate].
  intros _. eexists. split.
  - intros out. unfold render_train, getitem, bind, ret.
    rewrite E1, E2, E3, E4, E5, E6, E7. reflexivity.
  - intros k Hk. simpl in Hk.
    destruct Hk as [<-|[<-|[<-|[<-|[<-|[<-|[]]]]]]];
      eexists; (split; [eassumption | substring_tac]).
Qed.

Lemma render_train_missing (t : record) :
  well_formed t = false ->
  exists k, In k train_fields /\ forall out, render_train t out = (out, Raise (KeyError k)).
Proof.
  unfold well_formed, train_fields, render_train, getitem, bind, ret, throw. simpl.
  destruct (dict_get t "name") eqn:E1;
    [| intros _; exists "name"; split; [simpl; tauto | reflexivity]].
  destruct (dict_get t "train_no") eqn:E2;
    [| intros _; exists "train_no"; split; [simpl; tauto | reflexivity]].
  destruct (dict_get t "source") eqn:E3;
    [| intros _; exists "source"; split; [simpl; tauto | reflexivity]].
  destruct (dict_get t "destination") eqn:E4;
    [| intros _; exists "destination"; split; [simpl; tauto | reflexivity]].
  destruct (dict_get t "price") eqn:E5;
    [| intros _; exists "price"; split; [simpl; tauto | reflexivity]].
  destruct (dict_get t "class") eqn:E6;
    [| intros _; exists "class"; split; [simpl; tauto | reflexivity]].
  destruct (dict_get t "days") eqn:E7;
    [| intros _; exists "days"; split; [simpl; tauto | reflexivity]].
  discriminate.
Qed.

Lemma json_docs_loop_ok (data : list record) :
  forallb well_formed data = true ->
  exists docs,
    (forall out, json_docs_loop data out = (out, Ok docs)) /\
    Forall2 (fun t d => source d = schedule /\
      forall k, In k ["name"; "train_no"; "source"; "destination"; "price"; "class"] ->
        exists v, dict_get t k = Some v /\ substring v (page_content d)) data docs.
Proof.
  induction data as [|t ts IH]; simpl.
  - intros _. exists []. split; [reflexivity | constructor].
  - intros H. apply andb_true_iff in H as [Ht Hts].
    destruct (render_train_ok t Ht) as [text [Hr Hk]].
    destruct (IH Hts) as [docs [Hl Hf]].
    exists (mkDocument text schedule :: docs). split.
    + intros out. unfold bind at 1. rewrite Hr. unfold bind. rewrite Hl. reflexivity.
    + constructor; [split; [reflexivity | exact Hk] | exact Hf].
Qed.

Lemma json_docs_loop_missing (data : list record) :
  existsb (fun t => negb (well_formed t)) data = true ->
  exists k, In k train_fields /\ forall out, json_docs_loop data out = (out, Raise (KeyError k)).
Proof.
  induction data as [|t ts IH]; simpl; [discriminate|].
  destruct (well_formed t) eqn:Ht; simpl.
  - intros H. destruct (IH H) as [k [Hk Hl]].
    destruct (render_train_ok t Ht) as [text [Hr _]].
    exists k. split; [exact Hk|]. intros out.
    unfold bind at 1. rewrite Hr. unfold bind. rewrite Hl. reflexivity.
  - intros _. destruct (render_train_missing t Ht) as [k [Hk Hr]].
    exists k. split; [exact Hk|]. intros out. unfold bind at 1. rewrite Hr. reflexivity.
Qed.

(** ** Claims about the loader and the retriever *)

(** C3: when the documents loaded at build time are empty, the
    retriever is left unset (the embedding service is not called), and
    [search] returns "Pipeline not initialized." for every query without
    raising or printing. *)
Theorem empty_index_search_sentinel (jf : json_file) (pf : option string)
  (embedding_error : option string) :
  snd (load_documents jf pf []) = Ok [] ->
  exists db,
    app_startup jf pf embedding_error =
      ((["⚙️ Building RAG Pipeline..."] ++ fst (load_documents jf pf [])
        ++ ["❌ No documents found to index."])%list, Started db) /\
    retriever db = None /\
    forall dist q out, search dist db q out = (out, Ok "Pipeline not initialized.").
Proof.
  intros Hempty. exists (mkTransitRetriever None None). split.
  - unfold app_startup, _build_pipeline. unfold bind at 1. simpl.
    unfold bind at 1. rewrite (frame_load_documents jf pf). rewrite Hempty. reflexivity.
  - split; [reflexivity|]. intros dist q out. reflexivity.
Qed.

(** C4: with a schedule file of N well-formed records and no policy
    file, the loader yields exactly N documents, each tagged schedule,
    each containing the record's name, number, source, destination,
    price and class. *)
Theorem schedule_records_to_chunks (data : list record) :
  forallb well_formed data = true ->
  exists docs,
    load_documents (JsonData data) None [] = (["⚠️ Warning: policies.txt not found."], Ok docs) /\
    List.length docs = List.length data /\
    Forall2 (fun t d => source d = schedule /\
      forall k, In k ["name"; "train_no"; "source"; "destination"; "price"; "class"] ->
        exists v, dict_get t k = Some v /\ substring v (page_content d)) data docs.
Proof.
  intros H. destruct (json_docs_loop_ok data H) as [docs [Hl Hf]].
  exists docs. split; [|split].
  - unfold load_documents, _load_json_docs. unfold bind at 1. rewrite Hl.
    cbn. now rewrite app_nil_r.
  - symmetry. exact (Forall2_length Hf).
  - exact Hf.
Qed.

(** C5: a missing schedule file or a missing policy file prints a
    warning and adds no documents; the documents of the other source
    are still returned and the load does not fail. *)
Theorem missing_source_nonfatal :
  (forall pf, exists pdocs,
      snd (_load_text_docs pf []) = Ok pdocs /\
      load_documents JsonNotFound pf [] =
        ("⚠️ Warning: train_data.json not found." :: fst (_load_text_docs pf []), Ok pdocs)) /\
  (forall jf tdocs,
      snd (_load_json_docs jf []) = Ok tdocs ->
      load_documents jf None [] =
        ((fst (_load_json_docs jf []) ++ ["⚠️ Warning: policies.txt not found."])%list, Ok tdocs)).
Proof.
  split.
  - intros [text|].
    + eexists. split; reflexivity.
    + eexists. split; reflexivity.
  - intros jf tdocs H. unfold load_documents, bind at 1.
    rewrite (frame_load_json jf []). simpl app. destruct (_load_json_docs jf []) as [o r].
    simpl in H. subst r. unfold bind, print, ret. simpl. now rewrite app_nil_r.
Qed.

(** C10: a schedule file holding a record that lacks a required field
    makes the loader raise [KeyError] (no record is skipped, no partial
    list is returned); [_build_pipeline] does not catch it, so start-up
    prints the error and exits. *)
Theorem missing_field_exits_at_startup (data : list record) (pf : option string)
  (embedding_error : option string) :
  existsb (fun t => negb (well_formed t)) data = true ->
  exists k, In k train_fields /\
    snd (load_documents (JsonData data) pf []) = Raise (KeyError k) /\
    app_startup (JsonData data) pf embedding_error =
      (["⚙️ Building RAG Pipeline..."; "Error initializing TransitRetriever: '" ++ k ++ "'"], Exited).
Proof.
  intros H. destruct (json_docs_loop_missing data H) as [k [Hk Hl]].
  exists k. split; [exact Hk | split].
  - unfold load_documents, _load_json_docs, bind at 1. rewrite Hl. reflexivity.
  - unfold app_startup, _build_pipeline, load_documents, _load_json_docs, bind. simpl.
    rewrite Hl. reflexivity.
Qed.

Lemma empty_index_search_sentinel_witness :
  snd (load_documents JsonNotFound (Some (" " ++ utf8_encode 160 ++ nl)) []) = Ok [] /\
  exists db,
    app_startup JsonNotFound (Some (" " ++ utf8_encode 160 ++ nl)) (Some "Connection error.") =
      ((["⚙️ Building RAG Pipeline..."] ++ fst (load_documents JsonNotFound (Some (" " ++ utf8_encode 160 ++ nl)%string) [])
        ++ ["❌ No documents found to index."])%list, Started db) /\
    retriever db = None /\
    forall dist q out, search dist db q out = (out, Ok "Pipeline not initialized.").
Proof.
  split; [vm_compute; reflexivity|].
  apply empty_index_search_sentinel. vm_compute. reflexivity.
Defined.

Lemma schedule_records_to_chunks_witness :
  forallb well_formed [sample_train; sample_train] = true /\
  exists docs,
    load_documents (JsonData [sample_train; sample_train]) None [] =
      (["⚠️ Warning: policies.txt not found."], Ok docs) /\
    List.length docs = 2 /\
    Forall2 (fun t d => source d = schedule /\
      forall k, In k ["name"; "train_no"; "source"; "destination"; "price"; "class"] ->
        exists v, dict_get t k = Some v /\ substring v (page_content d))
      [sample_train; sample_train] docs.
Proof.
  split; [reflexivity|].
  apply schedule_records_to_chunks. reflexivity.
Defined.

Lemma missing_source_nonfatal_witness :
  snd (_load_json_docs (JsonData [sample_train]) []) =
    Ok [mkDocument ("Train Rajdhani Express (12951) travels from Mumbai to New Delhi. "
                    ++ "Price: 2500. Class: 3A. Days: Daily.") schedule] /\
  load_documents (JsonData [sample_train]) None [] =
    (["⚠️ Warning: policies.txt not found."],
     Ok [mkDocument ("Train Rajdhani Express (12951) travels from Mumbai to New Delhi. "
                     ++ "Price: 2500. Class: 3A. Days: Daily.") schedule]).
Proof.
  split; [reflexivity|].
  apply (proj2 missing_source_nonfatal). reflexivity.
Defined.

Lemma missing_field_exits_at_startup_witness :
  existsb (fun t => negb (well_formed t)) [sample_train; sample_train_no_price] = true /\
  exists k, In k train_fields /\
    snd (load_documents (JsonData [sample_train; sample_train_no_price]) (Some "Refunds: 50%") [])
      = Raise (KeyError k) /\
    app_startup (JsonData [sample_train; sample_train_no_price]) (Some "Refunds: 50%") None =
      (["⚙️ Building RAG Pipeline..."; "Error initializing TransitRetriever: '" ++ k ++ "'"], Exited).
Proof.
  split; [reflexivity|].
  apply missing_field_exits_at_startup. reflexivity.
Defined.

(** ** Claims about the conversation router *)

Lemma yes_not_no (x : string) :
  py_in_list x yes_words = true -> py_in_list x no_words = false.
Proof.
  intros H. apply py_in_list_In in H. simpl in H.
  destruct H as [<-|[<-|[<-|[<-|[<-|[<-|[]]]]]]]; reflexivity.
Qed.

Lemma yes_not_exit (x : string) :
  py_in_list x yes_words = true -> py_in_list x ["exit"; "quit"] = false.
Proof.
  intros H. apply py_in_list_In in H. simpl in H.
  destruct H as [<-|[<-|[<-|[<-|[<-|[<-|[]]]]]]]; reflexivity.
Qed.

Lemma no_not_exit (x : string) :
  py_in_list x no_words = true -> py_in_list x ["exit"; "quit"] = false.
Proof.
  intros H. apply py_in_list_In in H. simpl in H.
  destruct H as [<-|[<-|[<-|[]]]]; reflexivity.
Qed.

Lemma agent_logic_snoc llm (history : list message) (m : message) :
  agent_logic llm (history ++ [m])%list =
    if py_in_list (py_lower (content m)) yes_words then Ok ([AIMessage irctc_reply []], [])
    else if py_in_list (py_lower (content m)) no_words then Ok ([AIMessage decline_reply []], [])
    else let '(c, tcs) := llm (SystemMessage system_prompt :: history ++ [m])%list in
         Ok ([AIMessage c tcs], [LLMCall]).
Proof. unfold agent_logic. now rewrite py_last_snoc. Qed.

Lemma run_graph_step llm structured strb srch fuel limit n messages calls :
  n <> END -> limit <> Some 0 ->
  run_graph llm structured strb srch (S fuel) limit n messages calls =
    match node_step llm structured strb srch n messages with
    | Raise e => Some (Raise e)
    | Ok (ms, ev, n') =>
        run_graph llm structured strb srch fuel (option_map pred limit) n' ms (calls ++ ev)%list
    end.
Proof.
  intros Hn Hl. destruct n; [| | | now destruct Hn];
    (destruct limit as [[|l]|]; [now destruct Hl | reflexivity | reflexivity]).
Qed.

Lemma node_step_agent llm structured strb srch messages :
  node_step llm structured strb srch agent messages =
    match agent_logic llm messages with
    | Raise e => Raise e
    | Ok (new, ev) =>
        match route (messages ++ new)%list with
        | Raise e => Raise e
        | Ok n' => Ok ((messages ++ new)%list, ev, n')
        end
    end.
Proof. reflexivity. Qed.

(** A canned reply of the agent node ends the run after one superstep. *)
Lemma app_invoke_canned llm structured strb srch (lim : nat) (messages : list message) (r : string) :
  agent_logic llm messages = Ok ([AIMessage r []], []) ->
  py_in "READY_TO_BOOK" r = false ->
  app_invoke llm structured strb srch (S lim) messages =
    Some (Ok ((messages ++ [AIMessage r []])%list, [])).
Proof.
  intros H1 H2. unfold app_invoke.
  rewrite run_graph_step by discriminate.
  rewrite node_step_agent, H1.
  unfold route. rewrite py_last_snoc. cbn [content]. rewrite H2. reflexivity.
Qed.

Lemma chat_turn_canned llm structured strb srch (lim : nat) (raw r : string) :
  py_in_list (py_lower (py_strip raw)) ["exit"; "quit"] = false ->
  agent_logic llm [HumanMessage (py_strip raw)] = Ok ([AIMessage r []], []) ->
  py_in "READY_TO_BOOK" r = false ->
  chat_turn llm structured strb srch (S lim) raw = Reply r [].
Proof.
  intros H0 H1 H2. unfold chat_turn. cbv zeta. rewrite H0.
  rewrite (app_invoke_canned llm structured strb srch lim _ r H1 H2). reflexivity.
Qed.

(** C1, as stated, fails: the agent step lower-cases the latest message
    but does not trim it, so " YES " reaches the language model. *)
Lemma untrimmed_yes_reaches_model :
  py_in_list (py_lower (py_strip " YES ")) yes_words = true /\
  agent_logic (fun _ => ("Could you tell me more about your trip?", [])) [HumanMessage " YES "]
    = Ok ([AIMessage "Could you tell me more about your trip?" []], [LLMCall]).
Proof. split; vm_compute; reflexivity. Qed.

(** C1 (amended): if the latest message, lower-cased with [str.lower()]
    (not trimmed), is in the affirmative set, the agent step answers with
    the fixed reply carrying the IRCTC URL, calls neither the model nor a
    tool, and the run ends there, under any recursion limit that allows
    one superstep; the chat loop trims each input line with [str.strip()]
    first, so an input line whose trimmed, lower-cased text is in the set
    gets that reply. *)
Theorem agent_yes_shortcut
  (llm : list message -> string * list tool_call) (structured : list message -> TicketBooking)
  (strb : TicketBooking -> string) (srch : string -> string) :
  py_in irctc_url irctc_reply = true /\
  (forall (history : list message) (m : message),
     py_in_list (py_lower (content m)) yes_words = true ->
     agent_logic llm (history ++ [m])%list = Ok ([AIMessage irctc_reply []], []) /\
     forall lim : nat,
       app_invoke llm structured strb srch (S lim) (history ++ [m])%list =
         Some (Ok ((history ++ [m; AIMessage irctc_reply []])%list, []))) /\
  (forall (raw : string) (lim : nat),
     py_in_list (py_lower (py_strip raw)) yes_words = true ->
     chat_turn llm structured strb srch (S lim) raw = Reply irctc_reply []).
Proof.
  assert (Hr : py_in "READY_TO_BOOK" irctc_reply = false) by (vm_compute; reflexivity).
  split; [vm_compute; reflexivity | split].
  - intros history m H.
    assert (Ha : agent_logic llm (history ++ [m])%list = Ok ([AIMessage irctc_reply []], []))
      by (rewrite agent_logic_snoc, H; reflexivity).
    split; [exact Ha|]. intros lim.
    rewrite (app_invoke_canned llm structured strb srch lim _ _ Ha Hr).
    now rewrite <- app_assoc.
  - intros raw lim H. apply chat_turn_canned; [now apply yes_not_exit | | exact Hr].
    change [HumanMessage (py_strip raw)] with ([] ++ [HumanMessage (py_strip raw)])%list.
    rewrite agent_logic_snoc. cbn [content]. now rewrite H.
Qed.

(** C7, as stated, fails for the same reason: "No" followed by a newline
    reaches the model. *)
Lemma untrimmed_no_reaches_model :
  py_in_list (py_lower (py_strip ("No" ++ nl))) no_words = true /\
  agent_logic (fun _ => ("Which route are you interested in?", [])) [HumanMessage ("No" ++ nl)]
    = Ok ([AIMessage "Which route are you interested in?" []], [LLMCall]).
Proof. split; vm_compute; reflexivity. Qed.

(** C7 (amended): if the latest message, lower-cased with [str.lower()]
    (not trimmed), is in the negative set, the agent step answers with
    the fixed decline reply, calls neither the model nor a tool, and the
    run ends there, under any recursion limit that allows one superstep;
    through the chat loop, which trims input lines with [str.strip()], an
    input whose trimmed, lower-cased text is in the set gets that reply. *)
Theorem agent_no_shortcut
  (llm : list message -> string * list tool_call) (structured : list message -> TicketBooking)
  (strb : TicketBooking -> string) (srch : string -> string) :
  (forall (history : list message) (m : message),
     py_in_list (py_lower (content m)) no_words = true ->
     agent_logic llm (history ++ [m])%list = Ok ([AIMessage decline_reply []], []) /\
     forall lim : nat,
       app_invoke llm structured strb srch (S lim) (history ++ [m])%list =
         Some (Ok ((history ++ [m; AIMessage decline_reply []])%list, []))) /\
  (forall (raw : string) (lim : nat),
     py_in_list (py_lower (py_strip raw)) no_words = true ->
     chat_turn llm structured strb srch (S lim) raw = Reply decline_reply []).
Proof.
  assert (Hr : py_in "READY_TO_BOOK" decline_reply = false) by (vm_compute; reflexivity).
  assert (Hy : forall x, py_in_list x no_words = true -> py_in_list x yes_words = false).
  { intros x H. apply py_in_list_In in H. simpl in H.
    destruct H as [<-|[<-|[<-|[]]]]; reflexivity. }
  split.
  - intros history m H.
    assert (Ha : agent_logic llm (history ++ [m])%list = Ok ([AIMessage decline_reply []], []))
      by (rewrite agent_logic_snoc, (Hy _ H), H; reflexivity).
    split; [exact Ha|]. intros lim.
    rewrite (app_invoke_canned llm structured strb srch lim _ _ Ha Hr).
    now rewrite <- app_assoc.
  - intros raw lim H. apply chat_turn_canned; [now apply no_not_exit | | exact Hr].
    change [HumanMessage (py_strip raw)] with ([] ++ [HumanMessage (py_strip raw)])%list.
    rewrite agent_logic_snoc. cbn [content]. now rewrite (Hy _ H), H.
Qed.

(** C2 fails on the code: after the tools node the run re-enters the
    agent node, whose yes/no shortcut reads the latest message, now the
    tool result.  With a policy file holding "No" and no schedule file,
    the search result "No" makes the agent step reply with the decline
    text instead of calling the model again (one model call in all),
    under any recursion limit of at least 3 supersteps. *)
Theorem tool_result_hits_no_shortcut (lim : nat) :
  let db := startup_db JsonNotFound (Some "No") in
  app_invoke refund_llm sample_booking booking_str (search_tool flat_dist db) (3 + lim)
      [HumanMessage "What is the refund policy?"] =
    Some (Ok ([HumanMessage "What is the refund policy?";
               AIMessage "" [mkToolCall "search_railway_info" "refund policy"];
               ToolMessage "No";
               AIMessage decline_reply []],
              [LLMCall; ToolCall "refund policy"])) /\
  chat_turn refund_llm sample_booking booking_str (search_tool flat_dist db) (3 + lim)
      "What is the refund policy?" =
    Reply decline_reply [LLMCall; ToolCall "refund policy"].
Proof. split; vm_compute; reflexivity. Qed.

Lemma run_graph_total llm structured strb srch (fuel limit : nat) :
  limit < fuel ->
  forall n messages calls,
    run_graph llm structured strb srch fuel (Some limit) n messages calls <> None.
Proof.
  revert limit. induction fuel as [|f IH]; intros limit Hlt n messages calls; [lia|].
  destruct n; [| | | discriminate];
    (destruct limit as [|l]; [discriminate|]);
    (rewrite run_graph_step by discriminate;
     match goal with
     | |- context [node_step ?a ?b ?c ?d ?n ?m] =>
         destruct (node_step a b c d n m) as [[[ms ev] n']|e]; [apply IH; lia | discriminate]
     end).
Qed.

Lemma always_search_loop structured strb (srch : string -> string) :
  (forall q, py_in_list (py_lower (srch q)) yes_words = false /\
             py_in_list (py_lower (srch q)) no_words = false) ->
  forall fuel limit,
    (forall messages m calls,
       py_in_list (py_lower (content m)) yes_words = false ->
       py_in_list (py_lower (content m)) no_words = false ->
       run_graph always_search_llm structured strb srch fuel limit agent (messages ++ [m])%list calls
         = if limit_reached limit fuel then Some (Raise GraphRecursionError) else None) /\
    (forall messages calls,
       run_graph always_search_llm structured strb srch fuel limit tools
         (messages ++ [AIMessage "" [mkToolCall "search_railway_info" "trains to Delhi"]])%list calls
         = if limit_reached limit fuel then Some (Raise GraphRecursionError) else None).
Proof.
  intros Hs. induction fuel as [|f IH]; intros limit.
  - split; intros; destruct limit; reflexivity.
  - destruct limit as [[|k]|].
    + split; intros; reflexivity.
    + destruct (IH (Some k)) as [IHa IHt]. split.
      * intros messages m calls Hy Hn.
        rewrite run_graph_step by discriminate.
        rewrite node_step_agent, agent_logic_snoc, Hy, Hn.
        unfold always_search_llm, route. cbn -[run_graph py_last].
        rewrite py_last_snoc. cbn -[run_graph]. rewrite IHt. reflexivity.
      * intros messages calls. rewrite run_graph_step by discriminate.
        unfold node_step, tool_node. rewrite py_last_snoc. cbn -[run_graph].
        destruct (Hs "trains to Delhi") as [Hy Hn].
        rewrite IHa by assumption. reflexivity.
    + destruct (IH None) as [IHa IHt]. split.
      * intros messages m calls Hy Hn.
        rewrite run_graph_step by discriminate.
        rewrite node_step_agent, agent_logic_snoc, Hy, Hn.
        unfold always_search_llm, route. cbn -[run_graph py_last].
        rewrite py_last_snoc. cbn -[run_graph]. rewrite IHt. reflexivity.
      * intros messages calls. rewrite run_graph_step by discriminate.
        unfold node_step, tool_node. rewrite py_last_snoc. cbn -[run_graph].
        destruct (Hs "trains to Delhi") as [Hy Hn].
        rewrite IHa by assumption. reflexivity.
Qed.

(** C9, as stated, fails: [app.invoke] runs under LangGraph's recursion
    limit, whatever its value, so for every model behaviour, however many
    tool requests it makes, the processing of a turn stops; in particular
    a model that requests the Search Tool on every call ends the turn with
    a [GraphRecursionError] under every limit. *)
Lemma recursion_limit_ends_every_turn :
  (forall lim : nat,
   ~ (exists llm structured strb srch (u : string),
        forall fuel,
          run_graph llm structured strb srch fuel (Some lim) agent [HumanMessage u] [] = None)) /\
  (forall lim : nat,
     app_invoke always_search_llm sample_booking booking_str
       (search_tool flat_dist (startup_db JsonNotFound None)) lim
       [HumanMessage "Which trains go to Delhi?"] = Some (Raise GraphRecursionError)).
Proof.
  split.
  - intros lim [llm [structured [strb [srch [u H]]]]].
    apply (run_graph_total llm structured strb srch (S lim) lim
             (Nat.lt_succ_diag_r _) agent [HumanMessage u] []).
    apply H.
  - assert (Hs : forall q,
      py_in_list (py_lower (search_tool flat_dist (startup_db JsonNotFound None) q)) yes_words = false /\
      py_in_list (py_lower (search_tool flat_dist (startup_db JsonNotFound None) q)) no_words = false)
      by (intros q; split; vm_compute; reflexivity).
    intros lim. unfold app_invoke.
    change [HumanMessage "Which trains go to Delhi?"] with ([] ++ [HumanMessage "Which trains go to Delhi?"])%list.
    rewrite (proj1 (always_search_loop sample_booking booking_str _ Hs _ _))
      by (vm_compute; reflexivity).
    unfold limit_reached. now rewrite (proj2 (Nat.ltb_lt lim (S lim)) (Nat.lt_succ_diag_r lim)).
Qed.


(** C9 (amended): the source puts no limit of its own on the loop from
    the tools node back to the agent node: with a model that requests
    the Search Tool on every call (search results and user text outside
    the yes/no sets), the graph alone never reaches its end, for any
    number of supersteps.  The turn is bounded only by the recursion
    limit LangGraph applies to [app.invoke], whatever its value: there it
    ends with a [GraphRecursionError] instead of a reply. *)
Theorem tool_loop_has_no_own_limit structured strb (srch : string -> string) (u : string) :
  (forall q, py_in_list (py_lower (srch q)) yes_words = false /\
             py_in_list (py_lower (srch q)) no_words = false) ->
  py_in_list (py_lower u) yes_words = false ->
  py_in_list (py_lower u) no_words = false ->
  (forall fuel,
     run_graph always_search_llm structured strb srch fuel None agent [HumanMessage u] [] = None) /\
  (forall lim : nat,
     app_invoke always_search_llm structured strb srch lim [HumanMessage u]
       = Some (Raise GraphRecursionError)).
Proof.
  intros Hs Hy Hn.
  change [HumanMessage u] with ([] ++ [HumanMessage u])%list.
  split.
  - intros fuel. apply (proj1 (always_search_loop structured strb srch Hs fuel None)); assumption.
  - intros lim. unfold app_invoke.
    rewrite (proj1 (always_search_loop structured strb srch Hs _ _)) by assumption.
    unfold limit_reached. now rewrite (proj2 (Nat.ltb_lt lim (S lim)) (Nat.lt_succ_diag_r lim)).
Qed.

Lemma tool_loop_has_no_own_limit_witness :
  (forall q, py_in_list (py_lower (search_tool flat_dist (startup_db JsonNotFound None) q)) yes_words = false /\
             py_in_list (py_lower (search_tool flat_dist (startup_db JsonNotFound None) q)) no_words = false) /\
  py_in_list (py_lower "Which trains go to Delhi?") yes_words = false /\
  py_in_list (py_lower "Which trains go to Delhi?") no_words = false /\
  (forall fuel,
     run_graph always_search_llm sample_booking booking_str
       (search_tool flat_dist (startup_db JsonNotFound None)) fuel None agent
       [HumanMessage "Which trains go to Delhi?"] [] = None) /\
  (forall lim : nat,
     app_invoke always_search_llm sample_booking booking_str
       (search_tool flat_dist (startup_db JsonNotFound None)) lim
       [HumanMessage "Which trains go to Delhi?"] = Some (Raise GraphRecursionError)).
Proof.
  assert (Hs : forall q,
    py_in_list (py_lower (search_tool flat_dist (startup_db JsonNotFound None) q)) yes_words = false /\
    py_in_list (py_lower (search_tool flat_dist (startup_db JsonNotFound None) q)) no_words = false)
    by (intros q; split; vm_compute; reflexivity).
  split; [exact Hs|]. split; [vm_compute; reflexivity|]. split; [vm_compute; reflexivity|].
  apply tool_loop_has_no_own_limit; [exact Hs | vm_compute; reflexivity | vm_compute; reflexivity].
Defined.

(** ** Retrieval order *)

Section RetrievalOrder.

Variable dist : string -> string -> Z.
Variable q : string.

Let closer (a b : Document) : Prop := (doc_dist dist q a <= doc_dist dist q b)%Z.

Lemma insert_by_perm (d : Document) (l : list Document) :
  Permutation (d :: l) (insert_by dist q d l).
Proof.
  induction l as [|x l IH]; simpl; [reflexivity|].
  destruct (Z.leb (doc_dist dist q d) (doc_dist dist q x)); [reflexivity|].
  rewrite perm_swap. now apply perm_skip.
Qed.

Lemma sort_by_dist_perm (l : list Document) : Permutation l (sort_by_dist dist q l).
Proof.
  induction l as [|x l IH]; simpl; [reflexivity|].
  rewrite <- insert_by_perm. now apply perm_skip.
Qed.

Lemma insert_by_hdrel (a d : Document) (l : list Document) :
  closer a d -> HdRel closer a l -> HdRel closer a (insert_by dist q d l).
Proof.
  intros Had Hl. destruct l as [|x l]; simpl.
  - now constructor.
  - destruct (Z.leb (doc_dist dist q d) (doc_dist dist q x)); constructor; [exact Had|].
    now inversion Hl.
Qed.

Lemma insert_by_sorted (d : Document) (l : list Document) :
  Sorted closer l -> Sorted closer (insert_by dist q d l).
Proof.
  induction l as [|x l IH]; simpl; intros Hs.
  - repeat constructor.
  - destruct (Z.leb (doc_dist dist q d) (doc_dist dist q x)) eqn:E.
    + constructor; [exact Hs|]. constructor. unfold closer. now apply Z.leb_le.
    + inversion Hs as [|? ? Hs' Hhd]; subst. constructor; [now apply IH|].
      apply insert_by_hdrel; [|exact Hhd].
      unfold closer. apply Z.leb_gt in E. lia.
Qed.

Lemma sort_by_dist_sorted (l : list Document) : Sorted closer (sort_by_dist dist q l).
Proof.
  induction l as [|x l IH]; simpl; [constructor|]. now apply insert_by_sorted.
Qed.

End RetrievalOrder.

Lemma build_pipeline_shape jf pf e out db :
  snd (_build_pipeline jf pf e out) = Ok db ->
  retriever db = None \/
  exists all_docs, db = mkTransitRetriever (Some all_docs) (Some (mkRetriever all_docs 3)).
Proof.
  unfold _build_pipeline, embed_documents, bind, print, ret, throw. cbn -[load_documents].
  destruct (load_documents jf pf _) as [o [[|d ds]|err]]; cbn; [| destruct e |];
    intros H; inversion H; subst.
  - now left.
  - right. eexists. reflexivity.
Qed.

(** C6: on a built index, [search] prints the query and returns the page
    contents of at most k = 3 stored documents joined by blank lines:
    the nearest ones to the query (largest similarity), nearest first. *)
Theorem search_top3_by_similarity (dist : string -> string -> Z)
  (jf : json_file) (pf : option string) (embedding_error : option string)
  (db : TransitRetriever) (query : string) (out : list string) :
  snd (app_startup jf pf embedding_error) = Started db ->
  retriever db <> None ->
  exists docs hits rest,
    vectorstore db = Some docs /\
    search dist db query out =
      (app out ["🔎 Searching: " ++ query],
       Ok (py_join (nl ++ nl) (map page_content hits))) /\
    List.length hits = Nat.min 3 (List.length docs) /\
    Permutation docs (hits ++ rest)%list /\
    Sorted (fun a b => (doc_dist dist query a <= doc_dist dist query b)%Z) (hits ++ rest)%list.
Proof.
  intros Hs Hr. unfold app_startup in Hs.
  destruct (_build_pipeline jf pf embedding_error []) as [o [db'|e]] eqn:Eb; simpl in Hs;
    [|discriminate].
  inversion Hs; subst db'.
  assert (Hb : snd (_build_pipeline jf pf embedding_error []) = Ok db) by now rewrite Eb.
  destruct (build_pipeline_shape jf pf embedding_error [] db Hb) as [Hn|[all_docs ->]]; [contradiction|].
  exists all_docs, (firstn 3 (sort_by_dist dist query all_docs)),
         (skipn 3 (sort_by_dist dist query all_docs)).
  split; [reflexivity|]. split; [reflexivity|]. split; [|split].
  - rewrite length_firstn. now rewrite <- (Permutation_length (sort_by_dist_perm dist query all_docs)).
  - rewrite firstn_skipn. apply sort_by_dist_perm.
  - rewrite firstn_skipn. apply sort_by_dist_sorted.
Qed.

Definition length_dist (query chunk : string) : Z := Z.of_nat (String.length chunk).

Lemma search_top3_by_similarity_witness :
  snd (app_startup (JsonData [sample_train; sample_train]) (Some "Refunds: 50% before departure.") None)
    = Started (startup_db (JsonData [sample_train; sample_train]) (Some "Refunds: 50% before departure.")) /\
  retriever (startup_db (JsonData [sample_train; sample_train]) (Some "Refunds: 50% before departure.")) <> None /\
  exists docs hits rest,
    vectorstore (startup_db (JsonData [sample_train; sample_train]) (Some "Refunds: 50% before departure."))
      = Some docs /\
    search length_dist
      (startup_db (JsonData [sample_train; sample_train]) (Some "Refunds: 50% before departure."))
      "refund" [] =
      (["🔎 Searching: " ++ "refund"], Ok (py_join (nl ++ nl) (map page_content hits))) /\
    List.length hits = Nat.min 3 (List.length docs) /\
    Permutation docs (hits ++ rest)%list /\
    Sorted (fun a b => (doc_dist length_dist "refund" a <= doc_dist length_dist "refund" b)%Z)
      (hits ++ rest)%list.
Proof.
  split; [vm_compute; reflexivity|]. split; [vm_compute; discriminate|].
  apply search_top3_by_similarity with (jf := JsonData [sample_train; sample_train])
    (pf := Some "Refunds: 50% before departure.") (embedding_error := None); [vm_compute; reflexivity | vm_compute; discriminate].
Defined.

(** *** Characters *)

Lemma if_zero (b : bool) : (if b then 0 else 0) = 0.
Proof. now destruct b. Qed.

Lemma str_concat_app (a b : list string) : str_concat (a ++ b) = str_concat a ++ str_concat b.
Proof. unfold str_concat. induction a as [|p a IH]; simpl; [reflexivity|]. now rewrite IH, str_app_assoc. Qed.

Lemma str_concat_snoc (l : list string) (d : string) :
  str_concat (l ++ [d]) = str_concat l ++ d.
Proof. rewrite str_concat_app. change (str_concat [d]) with (d ++ ""). now rewrite str_app_nil_r. Qed.

Lemma chars_cons (b : ascii) (s : string) :
  chars (String b s) =
    match chars s with
    | String c p :: ps =>
        if is_cont c then String b (String c p) :: ps else String b "" :: String c p :: ps
    | ps => String b "" :: ps
    end.
Proof. reflexivity. Qed.

Lemma str_concat_chars (s : string) : str_concat (chars s) = s.
Proof.
  induction s as [|b s IH]; [reflexivity|]. rewrite chars_cons. revert IH.
  destruct (chars s) as [|[|c p] ps]; intros IH; [| |destruct (is_cont c)];
    unfold str_concat in *; simpl in *; now rewrite IH.
Qed.

Lemma chars_head (c : ascii) (s : string) : exists p ps, chars (String c s) = String c p :: ps.
Proof.
  rewrite chars_cons. destruct (chars s) as [|[|c' p] ps]; [| |destruct (is_cont c')]; eauto.
Qed.

Lemma chars_app (a b : string) :
  at_char_start b = true -> chars (a ++ b) = (chars a ++ chars b)%list.
Proof.
  intros Hb. induction a as [|x a IH]; [reflexivity|].
  change (String x a ++ b) with (String x (a ++ b)).
  rewrite (chars_cons x (a ++ b)), (chars_cons x a), IH.
  destruct a as [|y a'].
  - destruct b as [|c b']; [reflexivity|].
    destruct (chars_head c b') as [p [ps E]]. rewrite E.
    simpl in Hb. apply negb_true_iff in Hb. simpl. now rewrite Hb.
  - destruct (chars_head y a') as [p [ps E]]. rewrite E. simpl.
    destruct (is_cont y); reflexivity.
Qed.

Lemma len_app (a b : string) : at_char_start b = true -> len (a ++ b) = len a + len b.
Proof. intros Hb. unfold len. now rewrite chars_app, length_app. Qed.

Lemma at_char_start_app (a b : string) :
  at_char_start a = true -> at_char_start b = true -> at_char_start (a ++ b) = true.
Proof. destruct a; simpl; auto. Qed.

Lemma concat_aligned (l : list string) :
  Forall (fun p => at_char_start p = true) l -> at_char_start (str_concat l) = true.
Proof.
  induction 1 as [|p l Hp Hl IH]; [reflexivity|].
  change (str_concat (p :: l)) with (p ++ str_concat l). now apply at_char_start_app.
Qed.

Lemma chars_pieces (s : string) : Forall (fun p => chars p = [p]) (chars s).
Proof.
  induction s as [|b s IH]; [constructor|]. rewrite chars_cons. revert IH.
  destruct (chars s) as [|[|c p] ps]; intros IH.
  - constructor; [reflexivity | constructor].
  - apply Forall_cons_iff in IH as [H _]. discriminate H.
  - apply Forall_cons_iff in IH as [H Hps]. destruct (is_cont c) eqn:Ec.
    + constructor; [|exact Hps]. rewrite chars_cons, H, Ec. reflexivity.
    + constructor; [reflexivity | constructor; [exact H | exact Hps]].
Qed.

Lemma chars_tl_aligned (s : string) : Forall (fun p => at_char_start p = true) (tl (chars s)).
Proof.
  induction s as [|b s IH]; [constructor|]. rewrite chars_cons. revert IH.
  destruct (chars s) as [|[|c p] ps]; intros IH; simpl in IH.
  - constructor.
  - constructor; [reflexivity | exact IH].
  - destruct (is_cont c) eqn:Ec; simpl; [exact IH|].
    constructor; [simpl; now rewrite Ec | exact IH].
Qed.

Lemma piece_len (p : string) : chars p = [p] -> len p = 1.
Proof. intros H. unfold len. now rewrite H. Qed.

Lemma nonempty_len (s : string) : s <> "" -> 0 < len s.
Proof.
  destruct s as [|c s]; [contradiction|]. intros _. unfold len.
  destruct (chars_head c s) as [p [ps ->]]. simpl. lia.
Qed.

Lemma len_concat_all (l : list string) :
  Forall (fun p => at_char_start p = true) l -> len (str_concat l) = list_sum (map len l).
Proof.
  induction 1 as [|p l Hp Hl IH]; [reflexivity|].
  change (str_concat (p :: l)) with (p ++ str_concat l).
  rewrite len_app by (now apply concat_aligned). simpl. now rewrite IH.
Qed.

Lemma len_concat (l : list string) :
  Forall (fun p => at_char_start p = true) (tl l) -> len (str_concat l) = list_sum (map len l).
Proof.
  destruct l as [|p l]; [reflexivity|]. simpl tl. intros H.
  change (str_concat (p :: l)) with (p ++ str_concat l).
  rewrite len_app by (now apply concat_aligned). simpl. now rewrite len_concat_all.
Qed.

Lemma chars_concat_pieces (l : list string) :
  Forall (fun p => chars p = [p]) l -> Forall (fun p => at_char_start p = true) (tl l) ->
  chars (str_concat l) = l.
Proof.
  induction 1 as [|p l Hp1 Hps IH]; intros Hal; [reflexivity|].
  simpl in Hal. change (str_concat (p :: l)) with (p ++ str_concat l).
  rewrite chars_app by (now apply concat_aligned). rewrite Hp1, IH; [reflexivity|].
  destruct Hal; [constructor | assumption].
Qed.

Lemma tl_Forall {A} (P : A -> Prop) (l : list A) : Forall P l -> Forall P (tl l).
Proof. destruct 1; [constructor | assumption]. Qed.

Lemma tl_app_l {A} (P : A -> Prop) (l1 l2 : list A) :
  Forall P (tl (l1 ++ l2)) -> Forall P (tl l1).
Proof. destruct l1 as [|x l1]; simpl; intros H; [constructor|]. apply Forall_app in H. tauto. Qed.

Lemma tl_app_r {A} (P : A -> Prop) (l1 l2 : list A) (x : A) :
  Forall P (tl (l1 ++ x :: l2)) -> Forall P l2.
Proof.
  destruct l1 as [|y l1]; simpl; intros H; [exact H|].
  apply Forall_app in H as [_ H]. now apply Forall_cons_iff in H.
Qed.

Lemma tl_app_mid {A} (P : A -> Prop) (l1 l2 : list A) (x : A) :
  l1 <> [] -> Forall P (tl (l1 ++ x :: l2)) -> P x.
Proof.
  destruct l1 as [|y l1]; [contradiction|]. simpl. intros _ H.
  apply Forall_app in H as [_ H]. now apply Forall_cons_iff in H.
Qed.

Lemma tl_filter {A} (P : A -> Prop) (f : A -> bool) (l : list A) :
  Forall P (tl l) -> Forall P (tl (filter f l)).
Proof.
  intros H. assert (Hf : forall m, Forall P m -> Forall P (filter f m)).
  { intros m Hm. apply Forall_forall. intros y Hy. apply filter_In in Hy as [Hy _].
    rewrite Forall_forall in Hm. now apply Hm. }
  destruct l as [|x l]; [constructor|]. simpl in H |- *.
  destruct (f x); simpl; [now apply Hf | now apply tl_Forall, Hf].
Qed.

Lemma tl_mid {A} (P : A -> Prop) (a m b : list A) :
  Forall P (tl (a ++ m ++ b)) -> Forall P (tl m).
Proof.
  destruct a as [|x a]; simpl; intros H.
  - exact (tl_app_l P m b H).
  - apply Forall_app in H as [_ H]. apply Forall_app in H as [H _]. now apply tl_Forall.
Qed.

(** *** [str.strip()] *)

Lemma lstrip_chars_split (cs : list string) :
  exists a, cs = (a ++ lstrip_chars cs)%list /\ Forall (fun c => py_isspace c = true) a.
Proof.
  induction cs as [|c cs [a [Ha Hs]]]; [exists []; split; [reflexivity | constructor]|].
  simpl. destruct (py_isspace c) eqn:Ec.
  - exists (c :: a). split; [simpl; now rewrite <- Ha | now constructor].
  - exists []. split; [reflexivity | constructor].
Qed.

Lemma lstrip_chars_nil (cs : list string) :
  lstrip_chars cs = [] <-> forallb py_isspace cs = true.
Proof.
  induction cs as [|c cs IH]; simpl; [tauto|].
  destruct (py_isspace c); simpl; [exact IH | split; discriminate].
Qed.

Lemma py_strip_chars (w : string) :
  exists a m b, chars w = (a ++ m ++ b)%list /\ py_strip w = str_concat m /\
    Forall (fun c => py_isspace c = true) a /\ Forall (fun c => py_isspace c = true) b.
Proof.
  destruct (lstrip_chars_split (chars w)) as [a [Ha Hsa]].
  set (L := lstrip_chars (chars w)) in *.
  destruct (lstrip_chars_split (rev L)) as [b [Hb Hsb]].
  exists a, (rev (lstrip_chars (rev L))), (rev b).
  split; [|split; [reflexivity | split; [exact Hsa | now apply Forall_rev]]].
  rewrite Ha at 1. f_equal. rewrite <- (rev_involutive L) at 1. rewrite Hb at 1.
  now rewrite rev_app_distr.
Qed.

Lemma py_strip_pieces (w : string) :
  exists a m b, chars w = (a ++ m ++ b)%list /\ py_strip w = str_concat m /\
    chars (py_strip w) = m /\
    Forall (fun c => py_isspace c = true) a /\ Forall (fun c => py_isspace c = true) b.
Proof.
  destruct (py_strip_chars w) as [a [m [b [Hw [Hs [Ha Hb]]]]]].
  exists a, m, b. split; [exact Hw|]. split; [exact Hs|]. split; [|tauto].
  rewrite Hs. apply chars_concat_pieces.
  - pose proof (chars_pieces w) as H. rewrite Hw in H. apply Forall_app in H as [_ H].
    apply Forall_app in H. tauto.
  - pose proof (chars_tl_aligned w) as H. rewrite Hw in H. exact (tl_mid _ _ _ _ H).
Qed.

Lemma len_py_strip (w : string) : len (py_strip w) <= len w.
Proof.
  destruct (py_strip_pieces w) as [a [m [b [Hw [_ [Hc _]]]]]].
  unfold len. rewrite Hc, Hw, !length_app. lia.
Qed.

Lemma py_strip_substring (w : string) : substring (py_strip w) w.
Proof.
  destruct (py_strip_pieces w) as [a [m [b [Hw [Hs _]]]]].
  exists (str_concat a), (str_concat b). rewrite Hs, <- !str_concat_app, <- Hw.
  symmetry. apply str_concat_chars.
Qed.

Lemma py_strip_blank (s : string) : py_strip s = "" <-> is_blank s = true.
Proof.
  split.
  - intros H. destruct (py_strip_pieces s) as [a [m [b [Hw [_ [Hc [Ha Hb]]]]]]].
    rewrite H in Hc. simpl in Hc. subst m.
    unfold is_blank. rewrite Hw. simpl. rewrite forallb_app.
    rewrite Forall_forall in Ha, Hb.
    apply andb_true_iff; split; apply forallb_forall; intros x Hx; auto.
  - intros H. unfold is_blank in H. apply lstrip_chars_nil in H.
    unfold py_strip. rewrite H. reflexivity.
Qed.

Lemma is_blank_app (a b : string) :
  at_char_start b = true -> is_blank (a ++ b) = is_blank a && is_blank b.
Proof. intros Hb. unfold is_blank. now rewrite chars_app, forallb_app. Qed.


(** *** The policy splitter: windows *)

Lemma tiles_length (t : string) (ws : list string) :
  tiles t ws -> String.length t <= list_sum (map String.length ws).
Proof.
  induction 1 as [|pre ov post ws Hov Hao Hap Ht IH]; simpl; [lia|].
  rewrite !str_length_app in *. lia.
Qed.

Lemma tiles_app (x y : string) (ws1 ws2 : list string) :
  tiles x ws1 -> tiles y ws2 -> (ws1 <> [] -> at_char_start y = true) ->
  tiles (x ++ y) (ws1 ++ ws2)%list.
Proof.
  intros H1 H2. induction H1 as [|pre ov post ws Hov Hao Hap Ht IH]; intros Hy; simpl; [exact H2|].
  specialize (Hy ltac:(discriminate)).
  rewrite <- !str_app_assoc. apply (tiles_cons pre ov (post ++ y)); [exact Hov | exact Hao | |].
  - destruct post; simpl; [exact Hy | exact Hap].
  - rewrite str_app_assoc. apply IH. intros _. exact Hy.
Qed.

Lemma tiles_one (w : string) : tiles w [w].
Proof.
  pose proof (tiles_cons w "" "" [] (Nat.le_0_l _) eq_refl eq_refl tiles_nil) as H.
  rewrite !str_app_nil_r in H. exact H.
Qed.

Lemma py_join_empty (l : list string) : py_join "" l = str_concat l.
Proof.
  induction l as [|p ps IH]; [reflexivity|].
  destruct ps as [|q qs].
  - simpl. now rewrite str_app_nil_r.
  - change (py_join "" (p :: q :: qs)) with (p ++ "" ++ py_join "" (q :: qs)).
    rewrite IH. reflexivity.
Qed.

Lemma join_docs_empty (current : list string) :
  opt_list (_join_docs current "") = chunk_of (str_concat current).
Proof. unfold _join_docs, chunk_of. now rewrite py_join_empty. Qed.

Lemma pop_while_spec (l : nat) (current : list string) (total : nat) :
  Forall (fun p => at_char_start p = true) current ->
  total = len (str_concat current) ->
  exists popped, current = (popped ++ fst (pop_while 0 l current total))%list /\
    snd (pop_while 0 l current total) = len (str_concat (fst (pop_while 0 l current total))) /\
    snd (pop_while 0 l current total) <= chunk_overlap /\
    (snd (pop_while 0 l current total) + l <= chunk_size \/ snd (pop_while 0 l current total) = 0).
Proof.
  intros Hal. revert total. induction Hal as [|c rest Hc Hrest IH]; intros total Ht.
  - exists []. subst total. change (len (str_concat [])) with 0. simpl.
    unfold chunk_overlap. repeat split; lia.
  - cbn [pop_while].
    destruct (Nat.ltb chunk_overlap total || _) eqn:E.
    + edestruct IH as [popped [H1 H2]]; [|exists (c :: popped); split; [simpl; f_equal; exact H1 | exact H2]].
      subst total. change (str_concat (c :: rest)) with (c ++ str_concat rest).
      rewrite len_app by (now apply concat_aligned). destruct (Nat.ltb 1 _); lia.
    + exists []. simpl. split; [reflexivity|]. split; [exact Ht|].
      apply orb_false_iff in E as [E1 E2]. apply Nat.ltb_ge in E1.
      apply andb_false_iff in E2 as [E2|E2]; apply Nat.ltb_ge in E2; unfold chunk_overlap, chunk_size in *; lia.
Qed.

Lemma len_snoc (current ds : list string) (d : string) :
  Forall (fun p => at_char_start p = true) (tl (current ++ d :: ds)) ->
  len (str_concat current ++ d) = len (str_concat current) + len d.
Proof.
  intros H. destruct current as [|c cs]; [reflexivity|].
  apply len_app. apply (tl_app_mid (fun p => at_char_start p = true) (c :: cs) ds d); [discriminate | exact H].
Qed.

Lemma merge_go_tiles (splits : list string) :
  Forall (fun s => len s < chunk_size) splits ->
  forall current total,
  Forall (fun p => at_char_start p = true) (tl (current ++ splits)) ->
  total = len (str_concat current) -> total <= chunk_size ->
  exists ws, tiles (str_concat current ++ str_concat splits) ws /\
    Forall (fun w => len w <= chunk_size) ws /\ merge_go "" current total splits = strip_all ws.
Proof.
  induction 1 as [|d ds Hd Hds IH]; intros current total Hal Ht Hle.
  - exists [str_concat current]. split; [|split].
    + change (str_concat []) with "". rewrite str_app_nil_r. apply tiles_one.
    + constructor; [lia|constructor].
    + cbn [merge_go]. rewrite join_docs_empty. unfold strip_all. simpl. now rewrite app_nil_r.
  - pose proof (len_snoc current ds d Hal) as Hsnoc.
    assert (Hal' : Forall (fun p => at_char_start p = true) (tl ((current ++ [d]) ++ ds)))
      by (now rewrite <- app_assoc).
    cbn [merge_go]. change (len "") with 0. rewrite if_zero.
    destruct (Nat.ltb chunk_size (total + len d + 0)) eqn:E.
    + apply Nat.ltb_lt in E. destruct current as [|c cs].
      * change (len (str_concat [])) with 0 in Ht. unfold chunk_size in *. lia.
      * assert (Hcsal : Forall (fun p => at_char_start p = true) (cs ++ d :: ds)) by exact Hal.
        apply Forall_app in Hcsal as [Hcs Hdds]. apply Forall_cons_iff in Hdds as [Hdal Hdsal].
        assert (Hp : pop_while 0 (len d) (c :: cs) total = pop_while 0 (len d) cs (len (str_concat cs))).
        { cbn [pop_while].
          assert (Hc : (Nat.ltb chunk_size (total + len d + 0) && Nat.ltb 0 total) = true)
            by (apply andb_true_iff; split; apply Nat.ltb_lt; unfold chunk_size in *; lia).
          rewrite Hc, orb_true_r. f_equal. rewrite if_zero, Ht.
          change (str_concat (c :: cs)) with (c ++ str_concat cs).
          rewrite len_app by (now apply concat_aligned). lia. }
        cbv beta iota. rewrite Hp.
        destruct (pop_while_spec (len d) cs (len (str_concat cs)) Hcs eq_refl)
          as [popped [H1 [H2 [H3 H4]]]].
        destruct (pop_while 0 (len d) cs (len (str_concat cs))) as [c' t'] eqn:Ep.
        simpl in H1, H2, H3, H4. cbv beta iota. repeat rewrite if_zero.
        assert (Hc' : Forall (fun p => at_char_start p = true) c')
          by (rewrite H1 in Hcs; apply Forall_app in Hcs; tauto).
        destruct (IH (c' ++ [d])%list (t' + len d + 0)) as [ws [Hw1 [Hw2 Hw3]]].
        { rewrite <- app_assoc. apply tl_Forall. apply Forall_app; split; [exact Hc' | now constructor]. }
        { rewrite str_concat_snoc, len_app by exact Hdal. lia. }
        { unfold chunk_size, chunk_overlap in *. lia. }
        exists (str_concat (c :: cs) :: ws). split; [|split].
        -- assert (Hcc : str_concat (c :: cs) = (c ++ str_concat popped) ++ str_concat c').
           { change (str_concat (c :: cs)) with (c ++ str_concat cs).
             rewrite H1, str_concat_app. apply str_app_assoc. }
           rewrite Hcc. change (str_concat (d :: ds)) with (d ++ str_concat ds).
           rewrite <- (str_app_assoc (c ++ str_concat popped)).
           apply tiles_cons.
           ++ rewrite <- H2. exact H3.
           ++ now apply concat_aligned.
           ++ apply at_char_start_app; [exact Hdal | now apply concat_aligned].
           ++ rewrite str_concat_snoc, <- str_app_assoc in Hw1. exact Hw1.
        -- constructor; [rewrite <- Ht; exact Hle | exact Hw2].
        -- rewrite join_docs_empty, Hw3. reflexivity.
    + apply Nat.ltb_ge in E. cbv beta iota. repeat rewrite if_zero.
      destruct (IH (current ++ [d])%list (total + len d + 0)) as [ws [Hw1 [Hw2 Hw3]]];
        [exact Hal' | rewrite str_concat_snoc, Hsnoc; lia | lia |].
      exists ws. split; [|split];
        [rewrite str_concat_snoc, <- str_app_assoc in Hw1; exact Hw1 | exact Hw2 | exact Hw3].
Qed.

Lemma prefix_app (a s : string) : String.prefix a s = true -> exists r, s = a ++ r.
Proof.
  revert s. induction a as [|x a IH]; intros s H; [exists s; reflexivity|].
  destruct s as [|y s]; [discriminate|]. simpl in H.
  destruct (ascii_dec x y) as [->|]; [|discriminate].
  destruct (IH s H) as [r ->]. exists r. reflexivity.
Qed.

Lemma substring_full (r : string) : String.substring 0 (String.length r) r = r.
Proof. induction r as [|x r IH]; simpl; [reflexivity | now rewrite IH]. Qed.

Lemma str_drop_app (a r : string) : str_drop (String.length a) (a ++ r) = r.
Proof.
  unfold str_drop. rewrite str_length_app, Nat.add_comm, Nat.add_sub.
  induction a as [|x a IH]; simpl; [apply substring_full | exact IH].
Qed.

Lemma split_lit_nonempty (fuel : nat) (sep s : string) : split_lit fuel sep s <> [].
Proof.
  destruct fuel; simpl; [discriminate|]. destruct s; [discriminate|].
  destruct (String.prefix _ _); [discriminate|]. destruct (split_lit _ _ _); discriminate.
Qed.

Lemma py_join_char (sep p : string) (c : ascii) (ps : list string) :
  py_join sep (String c p :: ps) = String c (py_join sep (p :: ps)).
Proof. destruct ps; reflexivity. Qed.

Lemma split_lit_join (sep : string) : sep <> "" ->
  forall fuel s, String.length s <= fuel -> py_join sep (split_lit fuel sep s) = s.
Proof.
  intros Hsep. induction fuel as [|fuel IH]; intros s Hs; [reflexivity|].
  destruct s as [|c s']; [reflexivity|]. cbn [split_lit].
  destruct (String.prefix sep (String c s')) eqn:Hp.
  - destruct (prefix_app _ _ Hp) as [r Hr]. rewrite Hr, str_drop_app.
    rewrite Hr, str_length_app in Hs.
    assert (Hr' : String.length r <= fuel)
      by (destruct sep as [|x sep']; [contradiction | simpl in Hs; lia]).
    pose proof (IH r Hr') as IHr.
    destruct (split_lit fuel sep r) as [|p ps] eqn:Es;
      [exfalso; eapply split_lit_nonempty; eassumption|].
    change (py_join sep ("" :: p :: ps)) with ("" ++ sep ++ py_join sep (p :: ps)).
    now rewrite IHr.
  - simpl in Hs. pose proof (IH s' ltac:(lia)) as IHs.
    destruct (split_lit fuel sep s') as [|p ps] eqn:Es;
      [exfalso; eapply split_lit_nonempty; eassumption|].
    rewrite py_join_char. now rewrite IHs.
Qed.

Lemma str_concat_sep (sep p : string) (ps : list string) :
  str_concat (p :: map (fun q => sep ++ q) ps) = py_join sep (p :: ps).
Proof.
  revert p. induction ps as [|q qs IH]; intros p.
  - unfold str_concat. simpl. apply str_app_nil_r.
  - change (py_join sep (p :: q :: qs)) with (p ++ sep ++ py_join sep (q :: qs)).
    rewrite <- IH. unfold str_concat. simpl. now rewrite !str_app_assoc.
Qed.

Lemma str_concat_filter (l : list string) :
  str_concat (filter (fun s => negb (String.eqb s "")) l) = str_concat l.
Proof.
  unfold str_concat. induction l as [|p l IH]; [reflexivity|]. simpl.
  destruct (String.eqb p "") eqn:E; simpl.
  - apply String.eqb_eq in E. subst p. exact IH.
  - now rewrite IH.
Qed.

Lemma regex_concat (text sep : string) : str_concat (_split_text_with_regex text sep) = text.
Proof.
  unfold _split_text_with_regex. cbv zeta. rewrite str_concat_filter.
  destruct (String.eqb sep "") eqn:E; [apply str_concat_chars|].
  apply String.eqb_neq in E.
  pose proof (split_lit_nonempty (String.length text) sep text) as Hne.
  destruct (split_lit (String.length text) sep text) as [|p ps] eqn:Es; [contradiction|].
  rewrite str_concat_sep, <- Es. apply split_lit_join; [exact E | lia].
Qed.

Lemma regex_chars (text : string) :
  _split_text_with_regex text "" = filter (fun s => negb (String.eqb s "")) (chars text).
Proof. reflexivity. Qed.

Lemma chars_small (text : string) :
  Forall (fun s => len s < chunk_size) (_split_text_with_regex text "").
Proof.
  rewrite regex_chars. apply Forall_forall. intros x Hx. apply filter_In in Hx as [Hx _].
  pose proof (chars_pieces text) as Hp. rewrite Forall_forall in Hp.
  rewrite (piece_len x (Hp x Hx)). unfold chunk_size. lia.
Qed.

(** The pieces of [re.split] after the first start at a character
    boundary when the separator does. *)
Lemma regex_tl_aligned (text sep : string) :
  at_char_start sep = true ->
  Forall (fun p => at_char_start p = true) (tl (_split_text_with_regex text sep)).
Proof.
  intros Hs. unfold _split_text_with_regex. cbv zeta. apply tl_filter.
  destruct (String.eqb sep "") eqn:E; [apply chars_tl_aligned|].
  destruct (split_lit (String.length text) sep text) as [|p ps]; simpl; [constructor|].
  apply Forall_forall. intros x Hx. apply in_map_iff in Hx as [q [<- _]].
  destruct sep as [|c sep']; [discriminate E | exact Hs].
Qed.

Lemma merge_good (good : list string) :
  Forall (fun s => len s < chunk_size) good ->
  Forall (fun p => at_char_start p = true) (tl good) ->
  exists ws, tiles (str_concat good) ws /\ Forall (fun w => len w <= chunk_size) ws /\
    (match good with [] => [] | _ :: _ => _merge_splits good "" end) = strip_all ws /\
    (good = [] -> ws = []).
Proof.
  intros Hg Hal. destruct good as [|g gs].
  - exists []. split; [exact tiles_nil | split; [constructor | split; [reflexivity | intros _; reflexivity]]].
  - destruct (merge_go_tiles (g :: gs) Hg [] 0 Hal eq_refl (Nat.le_0_l _)) as [ws [H1 [H2 H3]]].
    exists ws. split; [exact H1 | split; [exact H2 | split; [exact H3 | discriminate]]].
Qed.

Lemma split_loop_tiles (recurse : option (string -> list string)) (ss : list string) :
  match recurse with
  | Some f => forall s, In s ss -> exists ws, tiles s ws /\
                Forall (fun w => len w <= chunk_size) ws /\ f s = strip_all ws
  | None => Forall (fun s => len s < chunk_size) ss
  end ->
  forall good, Forall (fun s => len s < chunk_size) good ->
  Forall (fun p => at_char_start p = true) (tl (good ++ ss)) ->
  exists ws, tiles (str_concat good ++ str_concat ss) ws /\
    Forall (fun w => len w <= chunk_size) ws /\ split_loop recurse good ss = strip_all ws.
Proof.
  induction ss as [|s ss IH]; intros Hrec good Hg Hal.
  - rewrite app_nil_r in Hal. destruct (merge_good good Hg Hal) as [ws [H1 [H2 [H3 _]]]]. exists ws.
    change (str_concat []) with "". rewrite str_app_nil_r. split; [exact H1 | split; [exact H2 | exact H3]].
  - assert (Hrec' : match recurse with
             | Some f => forall s, In s ss -> exists ws, tiles s ws /\
                           Forall (fun w => len w <= chunk_size) ws /\ f s = strip_all ws
             | None => Forall (fun s => len s < chunk_size) ss
             end)
      by (destruct recurse; [intros x Hx; apply Hrec; now right | now inversion Hrec]).
    cbn [split_loop]. destruct (Nat.ltb (len s) chunk_size) eqn:E.
    + apply Nat.ltb_lt in E.
      destruct (IH Hrec' (good ++ [s])%list) as [ws [H1 [H2 H3]]];
        [apply Forall_app; split; [exact Hg | now constructor] | now rewrite <- app_assoc |].
      exists ws. rewrite str_concat_snoc, <- str_app_assoc in H1.
      split; [exact H1 | split; [exact H2 | exact H3]].
    + apply Nat.ltb_ge in E.
      pose proof (tl_app_r (fun p => at_char_start p = true) good ss s Hal) as Hss.
      destruct (merge_good good Hg (tl_app_l _ _ _ Hal)) as [ws1 [H11 [H12 [H13 H14]]]].
      destruct (IH Hrec' [] (Forall_nil _) (tl_Forall _ _ Hss)) as [ws3 [H31 [H32 H33]]].
      destruct recurse as [f|]; [|inversion Hrec; lia].
      destruct (Hrec s (or_introl eq_refl)) as [ws2 [H21 [H22 H23]]].
      assert (Hcs : at_char_start (str_concat ss) = true) by (now apply concat_aligned).
      exists (ws1 ++ ws2 ++ ws3)%list. split; [|split].
      * change (str_concat (s :: ss)) with (s ++ str_concat ss).
        apply tiles_app; [exact H11 | apply tiles_app; [exact H21 | exact H31 | intros _; exact Hcs] |].
        intros Hne. apply at_char_start_app; [|exact Hcs].
        destruct good as [|g gs]; [exfalso; apply Hne, H14; reflexivity|].
        apply (tl_app_mid (fun p => at_char_start p = true) (g :: gs) ss s); [discriminate | exact Hal].
      * apply Forall_app; split; [exact H12 | apply Forall_app; split; [exact H22 | exact H32]].
      * unfold strip_all in *. rewrite !flat_map_app, <- H13, <- H23, <- H33. reflexivity.
Qed.

Lemma split_text_go_tiles (last_sep : string) (seps : list string) :
  (exists pre, seps = (pre ++ [""])%list) ->
  Forall (fun s => at_char_start s = true) seps ->
  forall text, exists ws, tiles text ws /\ Forall (fun w => len w <= chunk_size) ws /\
    _split_text_go last_sep seps text = strip_all ws.
Proof.
  induction seps as [|s rest IH]; intros [pre Hpre] Hal text.
  - destruct pre; discriminate.
  - assert (Hlast : s = "" \/ ((exists pre', rest = (pre' ++ [""])%list) /\ rest <> [])).
    { destruct pre as [|p pre']; simpl in Hpre; injection Hpre as -> Hr; [now left|].
      right. split; [now exists pre'|]. rewrite Hr. destruct pre'; discriminate. }
    apply Forall_cons_iff in Hal as [Hs Hal'].
    cbn [_split_text_go]. destruct (String.eqb s "") eqn:Es.
    + destruct (split_loop_tiles None (_split_text_with_regex text "") (chars_small text) []
                  (Forall_nil _) (regex_tl_aligned text "" eq_refl)) as [ws [H1 [H2 H3]]].
      exists ws. rewrite regex_concat in H1. split; [exact H1 | split; [exact H2 | exact H3]].
    + destruct Hlast as [->|[Hrest Hne]]; [simpl in Es; discriminate|].
      destruct (py_in s text).
      * destruct rest as [|r rs]; [contradiction|].
        destruct (split_loop_tiles (Some (fun piece => _split_text_go last_sep (r :: rs) piece))
                    (_split_text_with_regex text s)) with (good := @nil string)
          as [ws [H1 [H2 H3]]];
          [intros x _; apply IH; [exact Hrest | exact Hal'] | constructor
          | exact (regex_tl_aligned text s Hs) |].
        exists ws. rewrite regex_concat in H1. split; [exact H1 | split; [exact H2 | exact H3]].
      * apply IH; [exact Hrest | exact Hal'].
Qed.

Lemma split_text_tiles (text : string) :
  exists ws, tiles text ws /\ Forall (fun w => len w <= chunk_size) ws /\ split_text text = strip_all ws.
Proof.
  apply split_text_go_tiles; [exists [(nl ++ nl)%string; nl; " "]; reflexivity | repeat constructor].
Qed.


(** C8 (counterexample): for the policy text of 300 letters a, a space
    and 300 letters b, the splitter returns the two runs of letters as the
    chunks; the space is in neither, so the chunks do not tile the text. *)
Lemma policy_chunks_leave_gap :
  split_text policy_two_words = [str_repeat 300 "a"; str_repeat 300 "b"] /\
  ~ tiles policy_two_words (split_text policy_two_words).
Proof.
  assert (H : split_text policy_two_words = [str_repeat 300 "a"; str_repeat 300 "b"])
    by (vm_compute; reflexivity).
  split; [exact H|]. rewrite H. intros Ht. apply tiles_length in Ht.
  assert (Hl : String.length policy_two_words = 601) by (vm_compute; reflexivity).
  assert (Hs : list_sum (map String.length [str_repeat 300 "a"; str_repeat 300 "b"]) = 600)
    by (vm_compute; reflexivity).
  lia.
Qed.

(** C8 (amended): the splitter is configured with window size 500 and
    overlap 80; for every policy text it cuts the text into windows of at
    most 500 characters (code points, as [len] counts them) that tile it
    without gaps, consecutive windows overlapping by at most 80
    characters; the chunks, each tagged policy, are the windows with
    surrounding whitespace stripped, in order, a window that is only
    whitespace giving no chunk. *)
Theorem policy_windows_tile_text (text : string) (out : list string) :
  chunk_size = 500 /\ chunk_overlap = 80 /\
  exists ws : list string,
    tiles text ws /\
    Forall (fun w => len w <= chunk_size) ws /\
    split_text text = strip_all ws /\
    _load_text_docs (Some text) out = (out, Ok (map (fun c => mkDocument c policy) (strip_all ws))).
Proof.
  split; [reflexivity|]. split; [reflexivity|].
  destruct (split_text_tiles text) as [ws [H1 [H2 H3]]].
  exists ws. split; [exact H1|]. split; [exact H2|]. split; [exact H3|].
  unfold _load_text_docs. rewrite H3. reflexivity.
Qed.

(** ** Further properties of the program *)

(** *** The policy splitter: chunk bounds, blank and short texts *)

Lemma substring_trans (a b c : string) : substring a b -> substring b c -> substring a c.
Proof.
  intros [p1 [q1 ->]] [p2 [q2 ->]]. exists (p2 ++ p1), (q1 ++ q2).
  now rewrite <- !str_app_assoc.
Qed.

Lemma tiles_windows_in (t : string) (ws : list string) :
  tiles t ws -> Forall (fun w => substring w t) ws.
Proof.
  induction 1 as [|pre ov post ws Hov Hao Hap Ht IH]; constructor.
  - exists "", post. simpl. now rewrite str_app_assoc.
  - eapply Forall_impl; [|exact IH]. intros w Hw. apply substring_app_l, Hw.
Qed.

Lemma chunk_of_spec (w c : string) : In c (chunk_of w) -> c = py_strip w /\ c <> "".
Proof.
  unfold chunk_of. destruct (String.eqb (py_strip w) "") eqn:E; simpl; [tauto|].
  intros [<-|[]]. split; [reflexivity|]. apply String.eqb_neq, E.
Qed.

(** Every policy chunk is non-empty, at most [chunk_size] characters
    long, and occurs verbatim in the policy text. *)
Theorem policy_chunks_bounded (text : string) :
  Forall (fun c => c <> "" /\ len c <= chunk_size /\ substring c text) (split_text text).
Proof.
  destruct (split_text_tiles text) as [ws [Ht [Hs ->]]].
  pose proof (tiles_windows_in _ _ Ht) as Hin.
  apply Forall_forall. intros c Hc. unfold strip_all in Hc. apply in_flat_map in Hc as [w [Hw Hc]].
  apply chunk_of_spec in Hc as [-> Hne].
  rewrite Forall_forall in Hin, Hs.
  split; [exact Hne|]. split.
  - eapply Nat.le_trans; [apply len_py_strip | exact (Hs w Hw)].
  - eapply substring_trans; [apply py_strip_substring | exact (Hin w Hw)].
Qed.

Lemma tiles_blank (t : string) (ws : list string) :
  tiles t ws -> Forall (fun w => is_blank w = true) ws -> is_blank t = true.
Proof.
  induction 1 as [|pre ov post ws Hov Hao Hap Ht IH]; intros Hb; [reflexivity|].
  apply Forall_cons_iff in Hb as [Hw Hws]. specialize (IH Hws).
  rewrite str_app_assoc, is_blank_app by exact Hap. rewrite Hw. simpl.
  rewrite is_blank_app in IH by exact Hap. apply andb_true_iff in IH. tauto.
Qed.

Lemma tiles_windows_blank (t : string) (ws : list string) :
  tiles t ws -> is_blank t = true -> Forall (fun w => is_blank w = true) ws.
Proof.
  induction 1 as [|pre ov post ws Hov Hao Hap Ht IH]; intros Hb; constructor.
  - rewrite str_app_assoc, is_blank_app in Hb by exact Hap. apply andb_true_iff in Hb. tauto.
  - apply IH. rewrite is_blank_app in Hb by (now apply at_char_start_app).
    apply andb_true_iff in Hb. tauto.
Qed.

Lemma chunk_of_nil (w : string) : chunk_of w = [] <-> is_blank w = true.
Proof.
  rewrite <- py_strip_blank. unfold chunk_of.
  destruct (String.eqb (py_strip w) "") eqn:E; simpl.
  - apply String.eqb_eq in E. tauto.
  - apply String.eqb_neq in E. split; [discriminate | contradiction].
Qed.

(** The policy text gives no chunk exactly when [text.strip()] is
    empty: an empty or whitespace-only file adds nothing to the index. *)
Theorem blank_policy_no_chunks (text : string) :
  split_text text = [] <-> py_strip text = "".
Proof.
  rewrite py_strip_blank. destruct (split_text_tiles text) as [ws [Ht [_ ->]]].
  unfold strip_all. split.
  - intros H. apply (tiles_blank _ _ Ht). apply Forall_forall. intros w Hw.
    apply chunk_of_nil. destruct (chunk_of w) as [|c cs] eqn:Ec; [reflexivity|].
    exfalso. assert (Hc : In c (flat_map chunk_of ws)) by (apply in_flat_map; exists w; rewrite Ec; simpl; tauto).
    rewrite H in Hc. exact Hc.
  - intros Hb. pose proof (tiles_windows_blank _ _ Ht Hb) as Hwb.
    destruct (flat_map chunk_of ws) as [|c cs] eqn:E; [reflexivity|].
    exfalso. assert (Hc : In c (flat_map chunk_of ws)) by (rewrite E; simpl; tauto).
    apply in_flat_map in Hc as [w [Hw Hc]]. rewrite Forall_forall in Hwb.
    assert (Hn : chunk_of w = []) by (apply chunk_of_nil, Hwb, Hw).
    rewrite Hn in Hc. exact Hc.
Qed.

Lemma merge_go_fits (splits : list string) : forall current total,
  Forall (fun p => at_char_start p = true) (tl (current ++ splits)) ->
  total = len (str_concat current) -> total + len (str_concat splits) <= chunk_size ->
  merge_go "" current total splits = chunk_of (str_concat current ++ str_concat splits).
Proof.
  induction splits as [|d ds IH]; intros current total Hal Ht Hle.
  - cbn [merge_go]. rewrite join_docs_empty. change (str_concat []) with "". now rewrite str_app_nil_r.
  - change (str_concat (d :: ds)) with (d ++ str_concat ds) in *.
    pose proof (len_snoc current ds d Hal) as Hsnoc.
    rewrite len_app in Hle by (apply concat_aligned; exact (tl_app_r _ _ _ _ Hal)).
    cbn [merge_go]. change (len "") with 0. rewrite if_zero.
    assert (E : Nat.ltb chunk_size (total + len d + 0) = false) by (apply Nat.ltb_ge; lia).
    rewrite E. cbv beta iota. repeat rewrite if_zero.
    rewrite (IH (current ++ [d])%list).
    + rewrite str_concat_snoc, <- str_app_assoc. reflexivity.
    + now rewrite <- app_assoc.
    + rewrite str_concat_snoc, Hsnoc. lia.
    + lia.
Qed.

Lemma split_loop_small recurse (ss : list string) : Forall (fun s => len s < chunk_size) ss ->
  forall good, split_loop recurse good ss =
    match (good ++ ss)%list with [] => [] | _ :: _ => _merge_splits (good ++ ss) "" end.
Proof.
  induction 1 as [|s ss Hs Hss IH]; intros good.
  - rewrite app_nil_r. reflexivity.
  - cbn [split_loop]. apply Nat.ltb_lt in Hs. rewrite Hs, IH. now rewrite <- app_assoc.
Qed.

Lemma regex_nonempty (text sep : string) : Forall (fun s => s <> "") (_split_text_with_regex text sep).
Proof.
  apply Forall_forall. intros x Hx. unfold _split_text_with_regex in Hx. cbv zeta in Hx.
  apply filter_In in Hx as [_ Hx]. apply negb_true_iff, String.eqb_neq in Hx. exact Hx.
Qed.

Lemma big_piece_alone (ss : list string) (x : string) :
  Forall (fun s => s <> "") ss -> Forall (fun p => at_char_start p = true) (tl ss) ->
  In x ss -> len (str_concat ss) <= len x -> ss = [x].
Proof.
  intros Hne Hal Hin Hle. rewrite (len_concat ss Hal) in Hle.
  apply in_split in Hin as [l1 [l2 ->]].
  rewrite map_app, list_sum_app in Hle. simpl in Hle.
  apply Forall_app in Hne as [H1 H2]. apply Forall_cons_iff in H2 as [_ H2'].
  destruct l1 as [|a l1].
  - destruct l2 as [|b l2]; [reflexivity|].
    apply Forall_cons_iff in H2' as [Hb _]. apply nonempty_len in Hb. simpl in Hle. lia.
  - apply Forall_cons_iff in H1 as [Ha _]. apply nonempty_len in Ha. simpl in Hle. lia.
Qed.

Lemma split_loop_fits (recurse : option (string -> list string)) (ss : list string) :
  match recurse with
  | Some f => forall s, len s <= chunk_size -> f s = chunk_of s
  | None => Forall (fun s => len s < chunk_size) ss
  end ->
  Forall (fun s => s <> "") ss -> Forall (fun p => at_char_start p = true) (tl ss) ->
  len (str_concat ss) <= chunk_size ->
  split_loop recurse [] ss = chunk_of (str_concat ss).
Proof.
  intros Hrec Hne Hal Hle.
  destruct (forallb (fun s => Nat.ltb (len s) chunk_size) ss) eqn:Eall.
  - rewrite (split_loop_small recurse ss).
    + simpl app. destruct ss as [|s ss']; [reflexivity|]. unfold _merge_splits.
      rewrite merge_go_fits; [reflexivity | exact Hal | reflexivity | exact Hle].
    + apply Forall_forall. intros x Hx. rewrite forallb_forall in Eall. apply Nat.ltb_lt, Eall, Hx.
  - assert (Hbig : exists x, In x ss /\ chunk_size <= len x).
    { clear - Eall. induction ss as [|s ss IH]; [discriminate|]. simpl in Eall.
      destruct (Nat.ltb (len s) chunk_size) eqn:E; simpl in Eall.
      - destruct (IH Eall) as [x [Hx Hl]]. exists x. split; [now right | exact Hl].
      - exists s. split; [now left | apply Nat.ltb_ge, E]. }
    destruct Hbig as [x [Hx Hl]].
    assert (Hss : ss = [x]) by (apply big_piece_alone; [exact Hne | exact Hal | exact Hx | lia]). subst ss.
    change (str_concat [x]) with (x ++ "") in *. rewrite str_app_nil_r in *.
    cbn [split_loop]. apply Nat.ltb_ge in Hl. rewrite Hl.
    destruct recurse as [f|]; [| inversion Hrec; apply Nat.ltb_ge in Hl; lia].
    simpl. rewrite app_nil_r. apply Hrec, Hle.
Qed.

Lemma split_text_go_fits (last_sep : string) (seps : list string) :
  (exists pre, seps = (pre ++ [""])%list) ->
  Forall (fun s => at_char_start s = true) seps ->
  forall text, len text <= chunk_size -> _split_text_go last_sep seps text = chunk_of text.
Proof.
  induction seps as [|s rest IH]; intros [pre Hpre] Hal text Hlen.
  - destruct pre; discriminate.
  - assert (Hlast : s = "" \/ ((exists pre', rest = (pre' ++ [""])%list) /\ rest <> [])).
    { destruct pre as [|p pre']; simpl in Hpre; injection Hpre as -> Hr; [now left|].
      right. split; [now exists pre'|]. rewrite Hr. destruct pre'; discriminate. }
    apply Forall_cons_iff in Hal as [Hs Hal'].
    cbn [_split_text_go]. destruct (String.eqb s "") eqn:Es.
    + rewrite split_loop_fits; [now rewrite regex_concat | exact (chars_small text)
                               | apply regex_nonempty | exact (regex_tl_aligned text "" eq_refl)
                               | now rewrite regex_concat].
    + destruct Hlast as [->|[Hrest Hne]]; [simpl in Es; discriminate|].
      destruct (py_in s text).
      * destruct rest as [|r rs]; [contradiction|].
        rewrite split_loop_fits; [now rewrite regex_concat
                                 | intros x Hx; apply IH; [exact Hrest | exact Hal' | exact Hx]
                                 | apply regex_nonempty | exact (regex_tl_aligned text s Hs)
                                 | now rewrite regex_concat].
      * apply IH; [exact Hrest | exact Hal' | exact Hlen].
Qed.

(** A policy text of at most [chunk_size] characters gives one chunk,
    the text stripped of surrounding whitespace (none when blank). *)
Theorem short_policy_single_chunk (text : string) :
  len text <= chunk_size ->
  split_text text = (if String.eqb (py_strip text) "" then [] else [py_strip text]).
Proof.
  intros H. unfold split_text, _split_text. rewrite split_text_go_fits.
  - unfold chunk_of. now destruct (String.eqb _ _).
  - exists [(nl ++ nl)%string; nl; " "]. reflexivity.
  - repeat constructor.
  - exact H.
Qed.

(** *** Turns and the chat loop *)

Lemma py_last_some {A} (l : list A) (x : A) : py_last l = Some x -> exists init, l = (init ++ [x])%list.
Proof.
  unfold py_last. destruct (rev l) as [|y r] eqn:E; [discriminate|]. intros H. injection H as ->.
  exists (rev r). rewrite <- (rev_involutive l), E. reflexivity.
Qed.

Lemma snoc_not_nil {A} (l : list A) (x : A) : (l ++ [x])%list <> [].
Proof. intros Hc. apply app_eq_nil in Hc as [_ Hc]. discriminate. Qed.

Lemma node_step_inv llm structured strb srch (n : node) (ms : list message) :
  graph_inv n ms ->
  exists ms2 ev n', node_step llm structured strb srch n ms = Ok (ms2, ev, n') /\
    graph_inv n' ms2 /\ exists new, ms2 = (ms ++ new)%list.
Proof.
  destruct n; simpl graph_inv; intros Hinv.
  - destruct (exists_last Hinv) as [init [m ->]].
    rewrite node_step_agent, agent_logic_snoc.
    assert (Hroute : forall x tcs, exists n', route ((init ++ [m]) ++ [AIMessage x tcs])%list = Ok n' /\
              graph_inv n' ((init ++ [m]) ++ [AIMessage x tcs])%list).
    { intros x tcs. unfold route. rewrite py_last_snoc. destruct tcs as [|tc tcs].
      - cbn [content]. destruct (py_in "READY_TO_BOOK" x).
        + exists booking. split; [reflexivity | exact I].
        + exists END. split; [reflexivity|]. exists x. apply py_last_snoc.
      - exists tools. split; [reflexivity|]. exists x, (tc :: tcs). apply py_last_snoc. }
    destruct (py_in_list _ yes_words); [|destruct (py_in_list _ no_words)];
      [| | destruct (llm _) as [x tcs]];
      [ destruct (Hroute irctc_reply []) as [n' [Hr Hi]]
      | destruct (Hroute decline_reply []) as [n' [Hr Hi]]
      | destruct (Hroute x tcs) as [n' [Hr Hi]] ];
      rewrite Hr; do 3 eexists; (split; [reflexivity | split; [exact Hi | eexists; reflexivity]]).
  - destruct Hinv as [c [tcs Hl]]. unfold node_step. cbn -[tool_node]. unfold tool_node. rewrite Hl.
    do 3 eexists. split; [reflexivity|]. split; [|eexists; reflexivity].
    simpl. intros Hc. apply app_eq_nil in Hc as [Hc _]. subst ms. discriminate.
  - do 3 eexists. split; [reflexivity|]. split; [exists (strb (structured ms)); apply py_last_snoc | eexists; reflexivity].
  - do 3 eexists. split; [reflexivity|]. split; [exact Hinv | exists []; now rewrite app_nil_r].
Qed.

Lemma run_graph_inv llm structured strb srch (fuel : nat) :
  forall limit n ms calls, graph_inv n ms ->
  match run_graph llm structured strb srch fuel limit n ms calls with
  | Some (Ok (ms', _)) => graph_inv END ms' /\ exists new, ms' = (ms ++ new)%list
  | Some (Raise e) => e = GraphRecursionError
  | None => True
  end.
Proof.
  induction fuel as [|f IH]; intros limit n ms calls Hinv.
  - destruct n; try exact I. split; [exact Hinv | exists []; now rewrite app_nil_r].
  - assert (Hcase : n = END \/ n <> END) by (destruct n; [right; discriminate .. | now left]).
    destruct Hcase as [->|Hn].
    + split; [exact Hinv | exists []; now rewrite app_nil_r].
    + assert (Hcase : limit = Some 0 \/ limit <> Some 0)
        by (destruct limit as [[|l]|]; [now left | right; discriminate | right; discriminate]).
      destruct Hcase as [->|Hl]; [destruct n; try contradiction; reflexivity|].
      rewrite run_graph_step by assumption.
      destruct (node_step_inv llm structured strb srch n ms Hinv) as [ms2 [ev [n' [Hs [Hi [new ->]]]]]].
      rewrite Hs. specialize (IH (option_map pred limit) n' (ms ++ new)%list (calls ++ ev)%list Hi).
      destruct (run_graph _ _ _ _ _ _ _ _ _) as [[[ms' c']|e]|]; try exact IH.
      destruct IH as [H1 [new' ->]]. split; [exact H1 | exists (new ++ new')%list; now rewrite app_assoc].
Qed.

Lemma chat_turn_cases llm structured strb srch (lim : nat) (raw : string) :
  chat_turn llm structured strb srch lim raw = Quit \/
  chat_turn llm structured strb srch lim raw = TurnError GraphRecursionError \/
  exists new c calls,
    app_invoke llm structured strb srch lim [HumanMessage (py_strip raw)] =
      Some (Ok ((HumanMessage (py_strip raw) :: new ++ [AIMessage c []])%list, calls)) /\
    chat_turn llm structured strb srch lim raw = Reply c calls.
Proof.
  unfold chat_turn. cbv zeta.
  destruct (py_in_list (py_lower (py_strip raw)) ["exit"; "quit"]); [now left|right].
  pose proof (run_graph_inv llm structured strb srch (S lim) (Some lim) agent
                [HumanMessage (py_strip raw)] [] ltac:(discriminate)) as Hinv.
  pose proof (run_graph_total llm structured strb srch (S lim) lim
                (Nat.lt_succ_diag_r _) agent [HumanMessage (py_strip raw)] []) as Htot.
  unfold app_invoke.
  destruct (run_graph _ _ _ _ _ _ _ _ _) as [[[ms calls]|e]|]; [| |contradiction].
  - right. destruct Hinv as [[c Hc] [new' Hms]].
    destruct (py_last_some _ _ Hc) as [init Hinit].
    destruct init as [|i init']; rewrite Hinit in Hms; simpl in Hms; injection Hms as Hi Hnew.
    + discriminate Hi.
    + subst i. exists init', c, calls. rewrite Hc, Hinit. split; reflexivity.
  - left. now subst e.
Qed.

(** A turn either quits, or fails with [GraphRecursionError] (no other
    error can arise), or ends with an AI message that requests no tool,
    appended after the user message; the reply is its content. This
    holds under any recursion limit [lim]. *)
Theorem turn_outcomes llm structured strb srch (lim : nat) (raw : string) :
  chat_turn llm structured strb srch lim raw = Quit \/
  chat_turn llm structured strb srch lim raw = TurnError GraphRecursionError \/
  exists new c calls,
    app_invoke llm structured strb srch lim [HumanMessage (py_strip raw)] =
      Some (Ok ((HumanMessage (py_strip raw) :: new ++ [AIMessage c []])%list, calls)) /\
    chat_turn llm structured strb srch lim raw = Reply c calls.
Proof. apply chat_turn_cases. Qed.

(** *** Start-up *)

(** A schedule file that is not valid JSON is not caught by the loader:
    start-up prints the decoder's message and exits; the policy file is
    never read and the embedding model is never called. *)
Theorem invalid_json_exits_at_startup (msg : string) (pf : option string)
  (embedding_error : option string) :
  snd (load_documents (JsonInvalid msg) pf []) = Raise (JSONDecodeError msg) /\
  app_startup (JsonInvalid msg) pf embedding_error =
    (["⚙️ Building RAG Pipeline..."; "Error initializing TransitRetriever: " ++ msg], Exited).
Proof. split; reflexivity. Qed.

(** With well-formed schedule records and a policy text that together
    give at least one document, start-up indexes the schedule documents,
    in file order, followed by the policy chunks; if the embedding call
    succeeds it reports their total and sets up the retriever with k = 3,
    and if it fails start-up prints the error and exits. *)
Theorem startup_index_contents (data : list record) (text : string) :
  forallb well_formed data = true ->
  (data <> [] \/ split_text text <> []) ->
  exists tdocs,
    Forall2 (fun t d => source d = schedule /\
      forall k, In k ["name"; "train_no"; "source"; "destination"; "price"; "class"] ->
        exists v, dict_get t k = Some v /\ substring v (page_content d)) data tdocs /\
    app_startup (JsonData data) (Some text) None =
      (["⚙️ Building RAG Pipeline...";
        "✅ RAG Pipeline Ready. Loaded "
          ++ nat_str (List.length data + List.length (split_text text)) ++ " chunks."],
       Started (mkTransitRetriever
                  (Some (tdocs ++ map (fun c => mkDocument c policy) (split_text text))%list)
                  (Some (mkRetriever (tdocs ++ map (fun c => mkDocument c policy) (split_text text))%list 3)))) /\
    forall msg, app_startup (JsonData data) (Some text) (Some msg) =
      (["⚙️ Building RAG Pipeline..."; "Error initializing TransitRetriever: " ++ msg], Exited).
Proof.
  intros Hwf Hne. destruct (json_docs_loop_ok data Hwf) as [tdocs [Hl Hf]].
  exists tdocs. split; [exact Hf|].
  unfold app_startup, _build_pipeline, load_documents, _load_json_docs, _load_text_docs,
    embed_documents, bind, print, ret, throw.
  simpl. rewrite Hl.
  assert (Hlen : List.length (tdocs ++ map (fun c => mkDocument c policy) (split_text text))%list
                 = List.length data + List.length (split_text text)).
  { rewrite length_app, length_map. now rewrite (Forall2_length Hf). }
  destruct (tdocs ++ map (fun c => mkDocument c policy) (split_text text))%list as [|d ds] eqn:Ed.
  - exfalso. apply app_eq_nil in Ed as [E1 E2]. subst tdocs.
    apply map_eq_nil in E2. inversion Hf; subst. destruct Hne as [H|H]; contradiction.
  - rewrite Hlen. split; [reflexivity | intros msg; reflexivity].
Qed.

Lemma short_policy_single_chunk_witness :
  len (str_times 500 (utf8_encode 8377)) <= chunk_size /\
  split_text (str_times 500 (utf8_encode 8377)) =
    (if String.eqb (py_strip (str_times 500 (utf8_encode 8377))) "" then []
     else [py_strip (str_times 500 (utf8_encode 8377))]).
Proof.
  assert (H : len (str_times 500 (utf8_encode 8377)) <= chunk_size)
    by (apply Nat.leb_le; vm_compute; reflexivity).
  split; [exact H | apply (short_policy_single_chunk _ H)].
Defined.

Lemma startup_index_contents_witness :
  forallb well_formed [sample_train] = true /\
  ([sample_train] <> [] \/ split_text "Refunds: 50% before departure." <> []) /\
  exists tdocs,
    Forall2 (fun t d => source d = schedule /\
      forall k, In k ["name"; "train_no"; "source"; "destination"; "price"; "class"] ->
        exists v, dict_get t k = Some v /\ substring v (page_content d)) [sample_train] tdocs /\
    app_startup (JsonData [sample_train]) (Some "Refunds: 50% before departure.") None =
      (["⚙️ Building RAG Pipeline...";
        "✅ RAG Pipeline Ready. Loaded "
          ++ nat_str (List.length [sample_train] + List.length (split_text "Refunds: 50% before departure."))
          ++ " chunks."],
       Started (mkTransitRetriever
                  (Some (tdocs ++ map (fun c => mkDocument c policy) (split_text "Refunds: 50% before departure."))%list)
                  (Some (mkRetriever (tdocs ++ map (fun c => mkDocument c policy)
                                               (split_text "Refunds: 50% before departure."))%list 3)))) /\
    forall msg, app_startup (JsonData [sample_train]) (Some "Refunds: 50% before departure.") (Some msg) =
      (["⚙️ Building RAG Pipeline..."; "Error initializing TransitRetriever: " ++ msg], Exited).
Proof.
  assert (H1 : forallb well_formed [sample_train] = true) by reflexivity.
  assert (H2 : [sample_train] <> [] \/ split_text "Refunds: 50% before departure." <> [])
    by (left; discriminate).
  split; [exact H1 | split; [exact H2 | apply (startup_index_contents _ _ H1 H2)]].
Defined.
